(** * Binary document-term corpus codec: readers and writer

    A shallow embedding of [gensim/corpora/struct_corpus.py]
    ([MmReader1], [MmReader2]) and [gensim/corpora/python_array.py]
    ([MmReaderArray]).

    Conventions of the embedding:
    - a file is the list of its bytes; an open input file is the list of
      the bytes not yet read, and [f.read(n)] hands back at most [n] of them;
    - Python integers are [Z]; a C [int] of [struct]/[array] is four bytes,
      little-endian two's complement (the native layout of the usual hosts);
    - a C [float] is carried as its four bytes: the codec only moves weights,
      it never computes with them;
    - a generator is the list of the items it yields together with the way
      the pass ends (exhausted, or an exception raised after the last item);
    - the exceptions are the Python 3 ones. *)

From Stdlib Require Import ZArith List Bool Lia.
From Stdlib Require Import Strings.Byte.
Import ListNotations.

Local Open Scope Z_scope.

(** ** Bytes and fixed-width fields *)

Definition Z_of_byte (b : byte) : Z := Z.of_N (Byte.to_N b).

Definition byte_of_Z (z : Z) : byte :=
  match Byte.of_N (Z.to_N (z mod 256)) with
  | Some b => b
  | None => x00
  end.

(** Unsigned little-endian value of a run of bytes. *)
Fixpoint le_unsigned (bs : list byte) : Z :=
  match bs with
  | [] => 0
  | b :: bs' => Z_of_byte b + 256 * le_unsigned bs'
  end.

(** The [n] low bytes of [z], least significant first. *)
Fixpoint le_bytes (n : nat) (z : Z) : list byte :=
  match n with
  | O => []
  | S n' => byte_of_Z z :: le_bytes n' (Z.shiftr z 8)
  end.

Definition INT_MIN : Z := - 2 ^ 31.
Definition INT_MAX : Z := 2 ^ 31 - 1.

Definition in_int32 (z : Z) : bool := (INT_MIN <=? z) && (z <=? INT_MAX).

(** A C [int] read from four bytes. *)
Definition int32_of_bytes (bs : list byte) : Z :=
  let u := le_unsigned bs in
  if u <? 2 ^ 31 then u else u - 2 ^ 32.

(** A C [int] written as four bytes. *)
Definition bytes_of_int32 (z : Z) : list byte := le_bytes 4 z.

(** A C [float], kept as its four bytes in file order. *)
Definition float32 : Type := (byte * byte * byte * byte)%type.

Definition float32_of_bytes (bs : list byte) : float32 :=
  (nth 0 bs x00, nth 1 bs x00, nth 2 bs x00, nth 3 bs x00).

Definition bytes_of_float32 (w : float32) : list byte :=
  let '(b0, b1, b2, b3) := w in [b0; b1; b2; b3].

(** ** Exceptions and results *)

Inductive exn : Type :=
| struct_error    (* struct.unpack: buffer of the wrong size *)
| EOFError        (* array.fromfile: read() didn't return enough bytes *)
| ValueError      (* array: negative count, or a partial item; tuple arity *)
| OverflowError   (* array('i'): integer outside the C int range *)
| TypeError.

Inductive result (A : Type) : Type :=
| Ok (a : A)
| Raise (e : exn).
Arguments Ok {A} a.
Arguments Raise {A} e.

(** The failures a short read produces: these are the ways the code
    reports a truncated input. *)
Definition TruncatedInput (e : exn) : bool :=
  match e with
  | struct_error | EOFError | ValueError => true
  | OverflowError | TypeError => false
  end.

(** ** Input streams *)

Definition stream : Type := list byte.

(** A computation over an open input file. *)
Definition M (A : Type) : Type := stream -> result (A * stream).

Definition ret {A} (a : A) : M A := fun f => Ok (a, f).

Definition raise {A} (e : exn) : M A := fun _ => Raise e.

Definition bind {A B} (m : M A) (k : A -> M B) : M B :=
  fun f => match m f with
           | Ok (a, f') => k a f'
           | Raise e => Raise e
           end.

Definition lift {A} (r : result A) : M A :=
  fun f => match r with
           | Ok a => Ok (a, f)
           | Raise e => Raise e
           end.

Declare Scope io_scope.
Delimit Scope io_scope with io.
Notation "x <- m ;; k" := (bind m (fun x => k))
  (at level 100, m at next level, right associativity) : io_scope.

(** [f.read(n)]: up to [n] bytes, fewer at the end of the file. *)
Definition read (n : nat) : M (list byte) :=
  fun f => Ok (firstn n f, skipn n f).

(** ** The [struct] module *)

Inductive code : Type := Ci | Cf.

Inductive value : Type :=
| Int (z : Z)
| Float (w : float32).

(** [Struct(fmt).size]: every code is four bytes wide and four-byte
    aligned, so there is no padding. *)
Definition calcsize (fmt : list code) : nat := (4 * length fmt)%nat.

Fixpoint unpack_fields (fmt : list code) (b : list byte) : list value :=
  match fmt with
  | [] => []
  | Ci :: fmt' => Int (int32_of_bytes (firstn 4 b)) :: unpack_fields fmt' (skipn 4 b)
  | Cf :: fmt' => Float (float32_of_bytes (firstn 4 b)) :: unpack_fields fmt' (skipn 4 b)
  end.

(** [Struct(fmt).unpack(b)] *)
Definition unpack (fmt : list code) (b : list byte) : result (list value) :=
  if Nat.eqb (length b) (calcsize fmt) then Ok (unpack_fields fmt b)
  else Raise struct_error.

(** ['i f' * n]; a negative [n] gives the empty format. *)
Definition fmt_times (fmt : list code) (n : Z) : list code :=
  concat (repeat fmt (Z.to_nat n)).

(** ** The [array] module *)

Fixpoint items {A} (item : list byte -> A) (n : nat) (b : list byte) : list A :=
  match n with
  | O => []
  | S n' => item (firstn 4 b) :: items item n' (skipn 4 b)
  end.

(** [a.fromfile(f, n)] on an empty array [a] of four-byte items: the items
    read.  A negative count is refused; the bytes read are converted by
    [frombytes], which refuses a partial item; a short read is reported
    afterwards. *)
Definition fromfile {A} (item : list byte -> A) (n : Z) : M (list A) :=
  if n <? 0 then raise ValueError
  else (b <- read (4 * Z.to_nat n) ;;
        if negb (Nat.eqb (Nat.modulo (length b) 4) 0) then raise ValueError
        else if negb (Nat.eqb (length b) (4 * Z.to_nat n)) then raise EOFError
        else ret (items item (Z.to_nat n) b))%io.

(** ** Documents and readers *)

Definition entry : Type := (Z * float32)%type.
(** A document in bag-of-words form. *)
Definition bow : Type := list entry.

(** How a pass over a generator ends. *)
Inductive outcome : Type :=
| Done
| Raised (e : exn).

(** [for _ in range(n): d = body(); yield d] over the open file [f]. *)
Fixpoint for_range_yield {A} (body : M A) (n : nat) (f : stream)
  : list A * outcome :=
  match n with
  | O => ([], Done)
  | S n' =>
      match body f with
      | Raise e => ([], Raised e)
      | Ok (d, f') =>
          let '(ds, o) := for_range_yield body n' f' in (d :: ds, o)
      end
  end.

(** The attributes the three reader classes share. *)
Record reader : Type := mkReader {
  input : list byte;
  transposed : bool;
  num_docs : Z;
  num_terms : Z;
  num_nnz : Z
}.

(** [termid, docid = docid, termid] when the reader is not transposed. *)
Definition swap_ids (transposed : bool) (termid docid : Z) : Z * Z :=
  if negb transposed then (docid, termid) else (termid, docid).

Module MmReader1.

Definition skip_headers : M unit :=
  (b <- read (calcsize [Ci; Ci; Ci]) ;;
   vs <- lift (unpack [Ci; Ci; Ci] b) ;;
   match vs with
   | [_; _; _] => ret tt
   | _ => raise ValueError
   end)%io.

Definition read_headers (input : list byte) : result (Z * Z * Z) :=
  match (b <- read (calcsize [Ci; Ci; Ci]) ;;
         lift (unpack [Ci; Ci; Ci] b))%io input with
  | Raise e => Raise e
  | Ok ([Int num_docs; Int num_terms; Int num_nnz], _) =>
      Ok (num_docs, num_terms, num_nnz)
  | Ok _ => Raise ValueError
  end.

Definition init (input : list byte) (transposed : bool) : result reader :=
  match read_headers input with
  | Raise e => Raise e
  | Ok (num_docs, num_terms, num_nnz) =>
      Ok (mkReader input transposed num_docs num_terms num_nnz)
  end.

(** The inner loop, [for _ in range(doc_length)]: [docid] is a variable
    of the enclosing loop body and keeps the value an iteration leaves
    in it. *)
Fixpoint entries_loop (transposed : bool) (n : nat) (docid : Z)
         (document : bow) : M bow :=
  match n with
  | O => ret document
  | S n' =>
      (b <- read (calcsize [Ci; Cf]) ;;
       vs <- lift (unpack [Ci; Cf] b) ;;
       match vs with
       | [Int termid; Float value] =>
           let '(termid, docid) := swap_ids transposed termid docid in
           entries_loop transposed n' docid (document ++ [(termid, value)])
       | _ => raise ValueError
       end)%io
  end.

(** One turn of the outer loop, up to the [yield]. *)
Definition next_document (transposed : bool) : M bow :=
  (b <- read (calcsize [Ci; Ci]) ;;
   vs <- lift (unpack [Ci; Ci] b) ;;
   match vs with
   | [Int docid; Int doc_length] =>
       entries_loop transposed (Z.to_nat doc_length) docid []
   | _ => raise ValueError
   end)%io.

Definition iter (self : reader) : list bow * outcome :=
  match skip_headers (input self) with
  | Raise e => ([], Raised e)
  | Ok (_, f) =>
      for_range_yield (next_document (transposed self))
                      (Z.to_nat (num_docs self)) f
  end.

End MmReader1.

Module MmReader2.

(** [skip_headers] and [read_headers] have the text of [MmReader1]'s. *)
Definition skip_headers : M unit := MmReader1.skip_headers.

Definition read_headers (input : list byte) : result (Z * Z * Z) :=
  MmReader1.read_headers input.

Definition init (input : list byte) (transposed : bool) : result reader :=
  match read_headers input with
  | Raise e => Raise e
  | Ok (num_docs, num_terms, num_nnz) =>
      Ok (mkReader input transposed num_docs num_terms num_nnz)
  end.

(** [for termid in doc_terms: value = next(doc_terms); ...] over the
    iterator of the unpacked tuple; [docid] is carried from one turn to the
    next as in [MmReader1.entries_loop].  The tuple unpacked with a format
    made of ['i f'] groups is a run of (integer, float) pairs; no other
    shape reaches the last case. *)
Fixpoint pairs_loop (transposed : bool) (doc_terms : list value) (docid : Z)
         (document : bow) : result bow :=
  match doc_terms with
  | [] => Ok document
  | Int termid :: Float value :: doc_terms' =>
      let '(termid, docid) := swap_ids transposed termid docid in
      pairs_loop transposed doc_terms' docid (document ++ [(termid, value)])
  | _ => Raise TypeError
  end.

Definition next_document (transposed : bool) : M bow :=
  (b <- read (calcsize [Ci; Ci]) ;;
   vs <- lift (unpack [Ci; Ci] b) ;;
   match vs with
   | [Int docid; Int doc_length] =>
       let s_doc_terms := fmt_times [Ci; Cf] doc_length in
       b' <- read (calcsize s_doc_terms) ;;
       doc_terms <- lift (unpack s_doc_terms b') ;;
       lift (pairs_loop transposed doc_terms docid [])
   | _ => raise ValueError
   end)%io.

Definition iter (self : reader) : list bow * outcome :=
  match skip_headers (input self) with
  | Raise e => ([], Raised e)
  | Ok (_, f) =>
      for_range_yield (next_document (transposed self))
                      (Z.to_nat (num_docs self)) f
  end.

End MmReader2.

(** ** Output files *)

(** A file opened for writing: what has been written to it, and whether it
    has been closed. *)
Record ofile : Type := mkOfile {
  written : list byte;
  closed : bool
}.

(** A computation over an output file; the file keeps what was done to it
    when the computation raises. *)
Definition W (A : Type) : Type := ofile -> result A * ofile.

Definition wret {A} (a : A) : W A := fun f => (Ok a, f).

Definition wbind {A B} (m : W A) (k : A -> W B) : W B :=
  fun f => match m f with
           | (Ok a, f') => k a f'
           | (Raise e, f') => (Raise e, f')
           end.

Definition wlift {A} (r : result A) : W A := fun f => (r, f).

Declare Scope out_scope.
Delimit Scope out_scope with out.
Notation "x <- m ;; k" := (wbind m (fun x => k))
  (at level 100, m at next level, right associativity) : out_scope.
Notation "m ;; k" := (wbind m (fun _ => k))
  (at level 100, right associativity) : out_scope.

(** [utils.smart_open(fname, 'wb')]: a new, empty, open file. *)
Definition smart_open_wb : ofile := mkOfile [] false.

Definition write (b : list byte) : W unit :=
  fun f => (Ok tt, mkOfile (written f ++ b) (closed f)).

Definition close : W unit :=
  fun f => (Ok tt, mkOfile (written f) true).

(** [array.array('i', l)], and [a.append(x)] one item at a time: an integer
    outside the C [int] range is refused. *)
Fixpoint array_i (l : list Z) : result (list Z) :=
  match l with
  | [] => Ok []
  | x :: l' =>
      if in_int32 x then
        match array_i l' with
        | Ok a => Ok (x :: a)
        | Raise e => Raise e
        end
      else Raise OverflowError
  end.

(** [a.tofile(f)] *)
Definition tofile_i (a : list Z) : W unit :=
  write (concat (map bytes_of_int32 a)).

Definition tofile_f (a : list float32) : W unit :=
  write (concat (map bytes_of_float32 a)).

(** The corpus object handed to [save_corpus]: its three statistics and
    the documents its iteration gives. *)
Record corpus : Type := mkCorpus {
  corpus_num_docs : Z;
  corpus_num_terms : Z;
  corpus_num_nnz : Z;
  corpus_docs : list bow
}.

Module MmReaderArray.

Definition skip_headers : M unit :=
  (header <- fromfile int32_of_bytes 3 ;; ret tt)%io.

Definition read_headers (input : list byte) : result (Z * Z * Z) :=
  match fromfile int32_of_bytes 3 input with
  | Raise e => Raise e
  | Ok ([num_docs; num_terms; num_nnz], _) => Ok (num_docs, num_terms, num_nnz)
  | Ok _ => Raise ValueError
  end.

Definition init (input : list byte) (transposed : bool) : result reader :=
  match read_headers input with
  | Raise e => Raise e
  | Ok (num_docs, num_terms, num_nnz) =>
      Ok (mkReader input transposed num_docs num_terms num_nnz)
  end.

(** [for (termid, value) in doc: termids.append(termid); values.append(value)] *)
Fixpoint fill_arrays (doc : bow) (termids : list Z) (values : list float32)
  : result (list Z * list float32) :=
  match doc with
  | [] => Ok (termids, values)
  | (termid, value) :: doc' =>
      if in_int32 termid then
        fill_arrays doc' (termids ++ [termid]) (values ++ [value])
      else Raise OverflowError
  end.

(** The body of [for (docid, doc) in enumerate(corpus)]. *)
Definition save_document (docid : Z) (doc : bow) : W unit :=
  (let doc_length := Z.of_nat (length doc) in
   doc_header <- wlift (array_i [docid; doc_length]) ;;
   tofile_i doc_header ;;
   arrays <- wlift (fill_arrays doc [] []) ;;
   tofile_i (fst arrays) ;;
   tofile_f (snd arrays))%out.

Fixpoint save_documents (docid : Z) (docs : list bow) : W unit :=
  match docs with
  | [] => wret tt
  | doc :: docs' =>
      (save_document docid doc ;; save_documents (docid + 1) docs')%out
  end.

(** [save_corpus(fname, corpus)]: the result of the call and the state the
    file named [fname] is left in. *)
Definition save_corpus (corpus : corpus) : result unit * ofile :=
  (header <- wlift (array_i [corpus_num_docs corpus; corpus_num_terms corpus;
                             corpus_num_nnz corpus]) ;;
   tofile_i header ;;
   save_documents 0 (corpus_docs corpus) ;;
   close)%out smart_open_wb.

(** One turn of the loop of [__iter__], up to the [yield]; the reader's
    [transposed] attribute is not consulted. *)
Definition next_document : M bow :=
  (doc_header <- fromfile int32_of_bytes 2 ;;
   match doc_header with
   | [docid; doc_length] =>
       termids <- fromfile int32_of_bytes doc_length ;;
       values <- fromfile float32_of_bytes doc_length ;;
       ret (combine termids values)
   | _ => raise ValueError
   end)%io.

Definition iter (self : reader) : list bow * outcome :=
  match skip_headers (input self) with
  | Raise e => ([], Raised e)
  | Ok (_, f) =>
      for_range_yield next_document (Z.to_nat (num_docs self)) f
  end.

End MmReaderArray.

(** ** Whole runs: construct a reader on a file, then make one pass *)

Definition run (init : list byte -> bool -> result reader)
           (iter : reader -> list bow * outcome)
           (file : list byte) (transposed : bool) : list bow * outcome :=
  match init file transposed with
  | Raise e => ([], Raised e)
  | Ok self => iter self
  end.

Definition run1 := run MmReader1.init MmReader1.iter.
Definition run2 := run MmReader2.init MmReader2.iter.
Definition runArray := run MmReaderArray.init MmReaderArray.iter.

(** ** The shape of a file

    Both layouts frame a document the same way: an eight-byte sub-header
    [(doc_id, doc_length)] and then eight bytes per entry. *)

Definition docid_at (s : stream) : Z := int32_of_bytes (firstn 4 s).

Definition doc_length_at (s : stream) : Z :=
  int32_of_bytes (firstn 4 (skipn 4 s)).

(** Bytes taken by the record that starts [s]. *)
Definition record_size (s : stream) : nat :=
  (8 + 8 * Z.to_nat (doc_length_at s))%nat.

(** [s] starts with a whole record. *)
Definition record_fits (s : stream) : bool :=
  (8 <=? length s)%nat && (0 <=? doc_length_at s)
  && (record_size s <=? length s)%nat.

(** [s] is exactly [n] whole records. *)
Fixpoint wf_records (n : nat) (s : stream) : bool :=
  match n with
  | O => match s with [] => true | _ => false end
  | S n' => record_fits s && wf_records n' (skipn (record_size s) s)
  end.

Definition header_num_docs (file : list byte) : Z :=
  int32_of_bytes (firstn 4 file).

Definition header_num_terms (file : list byte) : Z :=
  int32_of_bytes (firstn 4 (skipn 4 file)).

Definition header_num_nnz (file : list byte) : Z :=
  int32_of_bytes (firstn 4 (skipn 8 file)).

(** The reader a constructor makes of a file that holds its header. *)
Definition reader_of (file : list byte) (transposed : bool) : reader :=
  mkReader file transposed (header_num_docs file) (header_num_terms file)
           (header_num_nnz file).

(** A well-formed file: the twelve-byte header, a document count that is
    not negative, and exactly that many whole records after it. *)
Definition well_formed (file : list byte) : bool :=
  (12 <=? length file)%nat && (0 <=? header_num_docs file)
  && wf_records (Z.to_nat (header_num_docs file)) (skipn 12 file).

(** Offset, within the records [s], at which record [j] starts. *)
Fixpoint offset_of (j : nat) (s : stream) : nat :=
  match j with
  | O => 0
  | S j' => (record_size s + offset_of j' (skipn (record_size s) s))%nat
  end.

(** The bytes of the [n] records of [s], one list per record. *)
Fixpoint records_of (n : nat) (s : stream) : list (list byte) :=
  match n with
  | O => []
  | S n' => firstn (record_size s) s :: records_of n' (skipn (record_size s) s)
  end.

(** A loop body decodes by frame when, on a stream that starts with a
    whole record, it returns [dec] of the bytes of that record and leaves
    the stream just after it, and when, on a stream that ends inside the
    sub-header or inside the entries the sub-header announces, it raises
    one of the short-read failures. *)
Definition framed (body : M bow) (dec : list byte -> bow) : Prop :=
  (forall s, record_fits s = true ->
             body s = Ok (dec (firstn (record_size s) s),
                          skipn (record_size s) s))
  /\ (forall s, ((8 <= length s)%nat -> 0 <= doc_length_at s) ->
                record_fits s = false ->
                exists e, body s = Raise e /\ TruncatedInput e = true).

(** What the interleaved readers make of the bytes [r] of one record. *)
Definition decode_interleaved (transposed : bool) (r : list byte) : bow :=
  match MmReader2.pairs_loop transposed
          (unpack_fields (fmt_times [Ci; Cf] (doc_length_at r)) (skipn 8 r))
          (docid_at r) [] with
  | Ok document => document
  | Raise _ => []
  end.

(** What the columnar reader makes of the bytes [r] of one record. *)
Definition decode_columnar (r : list byte) : bow :=
  let n := Z.to_nat (doc_length_at r) in
  combine (items int32_of_bytes n (skipn 8 r))
          (items float32_of_bytes n (skipn (8 + 4 * n) r)).

(** The bytes [save_corpus] writes for one document, and for a corpus. *)
Definition columnar_record (docid : Z) (doc : bow) : list byte :=
  bytes_of_int32 docid ++ bytes_of_int32 (Z.of_nat (length doc))
  ++ concat (map bytes_of_int32 (map fst doc))
  ++ concat (map bytes_of_float32 (map snd doc)).

Fixpoint columnar_records (docid : Z) (docs : list bow) : list byte :=
  match docs with
  | [] => []
  | doc :: docs' => columnar_record docid doc ++ columnar_records (docid + 1) docs'
  end.

Definition columnar_file (c : corpus) : list byte :=
  bytes_of_int32 (corpus_num_docs c) ++ bytes_of_int32 (corpus_num_terms c)
  ++ bytes_of_int32 (corpus_num_nnz c) ++ columnar_records 0 (corpus_docs c).

(** The length of the document and its term ids are C [int]s. *)
Definition doc_in_range (doc : bow) : bool :=
  in_int32 (Z.of_nat (length doc)) && forallb (fun e => in_int32 (fst e)) doc.

(** Every integer [save_corpus] has to store is a C [int]: the three
    statistics, the positions of the documents, their lengths and their
    term ids. *)
Definition corpus_in_range (c : corpus) : bool :=
  in_int32 (corpus_num_docs c) && in_int32 (corpus_num_terms c)
  && in_int32 (corpus_num_nnz c)
  && in_int32 (Z.of_nat (length (corpus_docs c)))
  && forallb doc_in_range (corpus_docs c).

(** The tuple [struct] unpacks from the stored entries [es]. *)
Definition tuple_of (es : bow) : list value :=
  concat (map (fun e => [Int (fst e); Float (snd e)]) es).

(** The first components the interleaved readers give with [transposed]
    false to a record of sub-header id [docid] and stored term ids [ts]:
    the sub-header id, then each stored term id but the last. *)
Definition drifted_ids (docid : Z) (ts : list Z) : list Z :=
  firstn (length ts) (docid :: ts).

(** ** Sample data *)

(** The weights 1.0, 2.5 and 4.0 as C floats. *)
Definition w1_0 : float32 := (x00, x00, x80, x3f).
Definition w2_5 : float32 := (x00, x00, x20, x40).
Definition w4_0 : float32 := (x00, x00, x80, x40).

(** Interleaved file: header (1, 3, 2), one record with sub-header id 0
    and the entries (1, 2.5), (2, 4.0). *)
Definition sample_interleaved : list byte :=
  concat [bytes_of_int32 1; bytes_of_int32 3; bytes_of_int32 2;
          bytes_of_int32 0; bytes_of_int32 2;
          bytes_of_int32 1; bytes_of_float32 w2_5;
          bytes_of_int32 2; bytes_of_float32 w4_0].

(** The same file with sub-header id 7. *)
Definition sample_interleaved_id7 : list byte :=
  concat [bytes_of_int32 1; bytes_of_int32 3; bytes_of_int32 2;
          bytes_of_int32 7; bytes_of_int32 2;
          bytes_of_int32 1; bytes_of_float32 w2_5;
          bytes_of_int32 2; bytes_of_float32 w4_0].

(** The corpus of two documents [(1, 2.5)] and [(0, 1.0), (2, 4.0)]. *)
Definition sample_corpus : corpus :=
  mkCorpus 2 3 3 [[(1, w2_5)]; [(0, w1_0); (2, w4_0)]].

(** A corpus that declares five documents and supplies one. *)
Definition miscounted_corpus : corpus :=
  mkCorpus 5 3 1 [[(1, w2_5)]].


(** A corpus whose second document holds a term id that is not a C [int]. *)
Definition overflowing_corpus : corpus :=
  mkCorpus 2 3 2 [[(1, w2_5)]; [(2 ^ 31, w4_0)]].

(** Columnar file: header (1, 3, 1), one record with sub-header id 0 and
    the entry (1, 2.5). *)
Definition sample_columnar : list byte :=
  columnar_file (mkCorpus 1 3 1 [[(1, w2_5)]]).

(** Interleaved file of three records, the middle one empty. *)
Definition sample_with_empty : list byte :=
  concat [bytes_of_int32 3; bytes_of_int32 3; bytes_of_int32 2;
          bytes_of_int32 0; bytes_of_int32 1;
          bytes_of_int32 1; bytes_of_float32 w2_5;
          bytes_of_int32 1; bytes_of_int32 0;
          bytes_of_int32 2; bytes_of_int32 1;
          bytes_of_int32 2; bytes_of_float32 w4_0].

(** Columnar file: header (1, 3, 1), one record with sub-header id 7 and
    the entry (1, 2.5). *)
Definition sample_columnar_id7 : list byte :=
  concat [bytes_of_int32 1; bytes_of_int32 3; bytes_of_int32 1;
          bytes_of_int32 7; bytes_of_int32 1;
          bytes_of_int32 1; bytes_of_float32 w2_5].

(** ** Statements about passes *)

(** The constructor accepts [file], takes its document count from the
    header, and one pass of the reader ends normally after yielding as
    many items as that count. *)
Definition yields_header_count
           (init : list byte -> bool -> result reader)
           (iter : reader -> list bow * outcome)
           (file : list byte) (t : bool) : Prop :=
  exists self ds,
    init file t = Ok self
    /\ num_docs self = header_num_docs file
    /\ iter self = (ds, Done)
    /\ Z.of_nat (length ds) = num_docs self.

(** The run over the first [k] bytes of [file] raises a short-read
    failure after yielding the first [j] documents of the run over the
    whole file, and nothing else.  A cut inside the header stops the
    constructor, before any document; otherwise [j] is the index of the
    record the offset [k] falls in. *)
Definition truncated_pass (run : list byte -> bool -> list bow * outcome)
           (file : list byte) (k : nat) (t : bool) : Prop :=
  exists j e,
    TruncatedInput e = true
    /\ run (firstn k file) t = (firstn j (fst (run file t)), Raised e)
    /\ if (k <? 12)%nat then j = 0%nat
       else (j < Z.to_nat (header_num_docs file))%nat
            /\ (12 + offset_of j (skipn 12 file) <= k
                < 12 + offset_of (S j) (skipn 12 file))%nat.

(** On the stream [s] the loop body returns the empty document and leaves
    the stream just after the eight bytes of the sub-header; a loop of
    [S n] turns on [s] yields that empty document and goes on with the
    [n] turns on what follows. *)
Definition empty_record_skipped (body : M bow) (s : stream) : Prop :=
  body s = Ok ([], skipn 8 s)
  /\ forall n,
      for_range_yield body (S n) s
      = ([] :: fst (for_range_yield body n (skipn 8 s)),
         snd (for_range_yield body n (skipn 8 s))).

(** ** The rest of the reader interface and the benchmark's counter *)

(** [__len__], the same in the three classes. *)
Definition len (self : reader) : Z := num_docs self.

(** [for term in doc: count += 1] *)
Fixpoint count_terms (doc : bow) (count : Z) : Z :=
  match doc with
  | [] => count
  | _ :: doc' => count_terms doc' (count + 1)
  end.

(** [for doc in corpus: for term in doc: count += 1] over the items a pass
    yields. *)
Fixpoint count_docs (docs : list bow) (count : Z) : Z :=
  match docs with
  | [] => count
  | doc :: docs' => count_docs docs' (count_terms doc count)
  end.

(** [count_nnz(corpus)] of [scripts/benchmark_corpus.py], on the pass the
    corpus makes: an exception that ends the pass leaves the function. *)
Definition count_nnz (corpus : list bow * outcome) : result Z :=
  let count := count_docs (fst corpus) 0 in
  match snd corpus with
  | Done => Ok count
  | Raised e => Raise e
  end.

(** The [n] (term id, weight) pairs stored one after the other in [b]. *)
Fixpoint stored_entries (n : nat) (b : list byte) : bow :=
  match n with
  | O => []
  | S n' =>
      (int32_of_bytes (firstn 4 b), float32_of_bytes (firstn 4 (skipn 4 b)))
      :: stored_entries n' (skipn 8 b)
  end.

(** The pass yielded at most [n] items ([n] counted as zero when negative),
    and exactly that many if it ended normally. *)
Definition pass_bounded (n : Z) (pass : list bow * outcome) : Prop :=
  (length (fst pass) <= Z.to_nat n)%nat
  /\ (snd pass = Done -> length (fst pass) = Z.to_nat n).

(** A record whose sub-header announces -3 entries, and four more bytes. *)
Definition sample_negative_record : stream :=
  bytes_of_int32 0 ++ bytes_of_int32 (-3) ++ bytes_of_int32 5.

(** [sample_interleaved] with its document count replaced by -1. *)
Definition sample_negative_count : list byte :=
  bytes_of_int32 (-1) ++ skipn 4 sample_interleaved.

(** The documents can be stored from position [docid] on: each is in
    range and so is each position. *)
Definition docs_storable (docid : Z) (docs : list bow) : bool :=
  forallb doc_in_range docs && (docid + Z.of_nat (length docs) <=? 2 ^ 31).

(** Every integer [save_corpus] meets fits a C [int]. *)
Definition corpus_storable (c : corpus) : bool :=
  in_int32 (corpus_num_docs c) && in_int32 (corpus_num_terms c)
  && in_int32 (corpus_num_nnz c) && docs_storable 0 (corpus_docs c).

(** * Properties *)

(** ** Fixed-width fields *)

Lemma Z_of_byte_range (b : byte) : 0 <= Z_of_byte b < 256.
Proof.
  unfold Z_of_byte. pose proof (Byte.to_N_bounded b). lia.
Qed.

Lemma Z_of_byte_of_Z (z : Z) : Z_of_byte (byte_of_Z z) = z mod 256.
Proof.
  unfold Z_of_byte, byte_of_Z.
  pose proof (Z.mod_pos_bound z 256 ltac:(lia)) as Hm.
  destruct (Byte.of_N (Z.to_N (z mod 256))) as [b|] eqn:E.
  - apply Byte.to_of_N in E. rewrite E. lia.
  - apply Byte.of_N_None_iff in E. lia.
Qed.

Lemma length_le_bytes (n : nat) (z : Z) : length (le_bytes n z) = n.
Proof.
  revert z. induction n as [|n IH]; intros z; simpl; [reflexivity|].
  now rewrite IH.
Qed.

Lemma le_unsigned_le_bytes (n : nat) (z : Z) :
  le_unsigned (le_bytes n z) = z mod 2 ^ (8 * Z.of_nat n).
Proof.
  revert z. induction n as [|n IH]; intros z.
  - simpl. now rewrite Z.mod_1_r.
  - cbn [le_bytes le_unsigned]. rewrite Z_of_byte_of_Z, IH.
    rewrite Z.shiftr_div_pow2 by lia.
    replace (8 * Z.of_nat (S n)) with (8 + 8 * Z.of_nat n) by lia.
    rewrite Z.pow_add_r by lia.
    change (2 ^ 8) with 256.
    rewrite (Z.rem_mul_r z 256 (2 ^ (8 * Z.of_nat n))) by lia.
    reflexivity.
Qed.

Lemma length_bytes_of_int32 (z : Z) : length (bytes_of_int32 z) = 4%nat.
Proof. apply length_le_bytes. Qed.

Lemma length_bytes_of_float32 (w : float32) : length (bytes_of_float32 w) = 4%nat.
Proof. now destruct w as [[[b0 b1] b2] b3]. Qed.

Lemma in_int32_range (z : Z) :
  in_int32 z = true <-> - 2 ^ 31 <= z <= 2 ^ 31 - 1.
Proof.
  unfold in_int32, INT_MIN, INT_MAX.
  rewrite andb_true_iff, !Z.leb_le. reflexivity.
Qed.

(** A C [int] comes back from its bytes. *)
Lemma int32_of_bytes_of_int32 (z : Z) :
  in_int32 z = true -> int32_of_bytes (bytes_of_int32 z) = z.
Proof.
  intros H. apply in_int32_range in H.
  unfold int32_of_bytes, bytes_of_int32.
  rewrite le_unsigned_le_bytes. change (2 ^ (8 * Z.of_nat 4)) with (2 ^ 32).
  change (2 ^ 32) with 4294967296. change (2 ^ 31) with 2147483648 in *.
  destruct (Z_lt_le_dec z 0) as [Hn|Hp].
  - replace (z mod 4294967296) with (z + 4294967296).
    + destruct (z + 4294967296 <? 2147483648) eqn:E;
        [apply Z.ltb_lt in E; lia | lia].
    + apply Z.mod_unique with (q := -1); lia.
  - rewrite Z.mod_small by lia.
    destruct (z <? 2147483648) eqn:E; [reflexivity | apply Z.ltb_ge in E; lia].
Qed.

(** What is read as a C [int] is a C [int]. *)
Lemma in_int32_of_bytes (b : list byte) :
  length b = 4%nat -> in_int32 (int32_of_bytes b) = true.
Proof.
  intros H. apply in_int32_range.
  assert (R : 0 <= le_unsigned b < 2 ^ 32).
  { destruct b as [|b0 [|b1 [|b2 [|b3 [|? ?]]]]]; try discriminate.
    cbn [le_unsigned].
    pose proof (Z_of_byte_range b0). pose proof (Z_of_byte_range b1).
    pose proof (Z_of_byte_range b2). pose proof (Z_of_byte_range b3).
    change (2 ^ 32) with 4294967296. lia. }
  unfold int32_of_bytes.
  change (2 ^ 32) with 4294967296 in *. change (2 ^ 31) with 2147483648 in *.
  destruct (le_unsigned b <? 2147483648) eqn:E;
    [apply Z.ltb_lt in E | apply Z.ltb_ge in E]; lia.
Qed.

Lemma float32_of_bytes_of_float32 (w : float32) :
  float32_of_bytes (bytes_of_float32 w) = w.
Proof. now destruct w as [[[b0 b1] b2] b3]. Qed.

(** ** Reading primitives *)

Lemma firstn_firstn_le {A} (i j : nat) (l : list A) :
  (i <= j)%nat -> firstn i (firstn j l) = firstn i l.
Proof. intros H. rewrite firstn_firstn. now rewrite Nat.min_l. Qed.

Lemma firstn_skipn_firstn {A} (i m n : nat) (l : list A) :
  (m + i <= n)%nat -> firstn i (skipn m (firstn n l)) = firstn i (skipn m l).
Proof.
  intros H. rewrite skipn_firstn_comm, firstn_firstn_le by lia. reflexivity.
Qed.

Lemma length_firstn_eqb {A} (n : nat) (l : list A) :
  Nat.eqb (length (firstn n l)) n = (n <=? length l)%nat.
Proof.
  rewrite length_firstn.
  destruct (Nat.leb_spec n (length l)) as [H|H].
  - rewrite Nat.min_l by lia. apply Nat.eqb_refl.
  - rewrite Nat.min_r by lia. apply Nat.eqb_neq. lia.
Qed.

Lemma docid_at_firstn (m : nat) (s : stream) :
  (4 <= m)%nat -> docid_at (firstn m s) = docid_at s.
Proof. intros H. unfold docid_at. now rewrite firstn_firstn_le. Qed.

Lemma doc_length_at_firstn (m : nat) (s : stream) :
  (8 <= m)%nat -> doc_length_at (firstn m s) = doc_length_at s.
Proof. intros H. unfold doc_length_at. now rewrite firstn_skipn_firstn. Qed.

Lemma record_size_firstn (m : nat) (s : stream) :
  (8 <= m)%nat -> record_size (firstn m s) = record_size s.
Proof. intros H. unfold record_size. now rewrite doc_length_at_firstn. Qed.

(** The sub-header read of the [struct] readers. *)
Lemma struct_subheader {A} (k : Z -> Z -> M A) (s : stream) :
  (b <- read (calcsize [Ci; Ci]) ;;
   vs <- lift (unpack [Ci; Ci] b) ;;
   match vs with
   | [Int docid; Int doc_length] => k docid doc_length
   | _ => raise ValueError
   end)%io s
  = if (8 <=? length s)%nat then k (docid_at s) (doc_length_at s) (skipn 8 s)
    else Raise struct_error.
Proof.
  unfold bind, read, lift, unpack.
  change (calcsize [Ci; Ci]) with 8%nat.
  rewrite length_firstn_eqb.
  destruct (8 <=? length s)%nat; [|reflexivity].
  cbn [unpack_fields].
  rewrite firstn_firstn_le, firstn_skipn_firstn by lia.
  reflexivity.
Qed.

(** [fromfile] in full: what it gives on a stream long enough, and that it
    raises a short-read failure otherwise. *)
Lemma fromfile_ok {A} (item : list byte -> A) (n : Z) (s : stream) :
  0 <= n -> (4 * Z.to_nat n <= length s)%nat ->
  fromfile item n s
  = Ok (items item (Z.to_nat n) (firstn (4 * Z.to_nat n) s),
        skipn (4 * Z.to_nat n) s).
Proof.
  intros Hn Hl. unfold fromfile.
  destruct (Z.ltb_spec n 0) as [?|_]; [lia|].
  unfold bind, read.
  rewrite length_firstn, Nat.min_l by lia.
  assert (E : ((4 * Z.to_nat n) mod 4 = 0)%nat)
    by (rewrite Nat.mul_comm; apply Nat.Div0.mod_mul).
  rewrite E, !Nat.eqb_refl. reflexivity.
Qed.

Lemma fromfile_short {A} (item : list byte -> A) (n : Z) (s : stream) :
  0 <= n -> (length s < 4 * Z.to_nat n)%nat ->
  exists e, fromfile item n s = Raise e /\ TruncatedInput e = true.
Proof.
  intros Hn Hl. unfold fromfile.
  destruct (Z.ltb_spec n 0) as [?|_]; [lia|].
  unfold bind, read.
  rewrite length_firstn, Nat.min_r by lia.
  destruct (Nat.eqb (length s mod 4) 0); cbn [negb].
  - destruct (Nat.eqb_spec (length s) (4 * Z.to_nat n)) as [?|_]; [lia|].
    cbn [negb]. now exists EOFError.
  - now exists ValueError.
Qed.

Lemma items_firstn {A} (item : list byte -> A) (n m : nat) (b : list byte) :
  (4 * n <= m)%nat -> items item n (firstn m b) = items item n b.
Proof.
  revert m b. induction n as [|n IH]; intros m b H; [reflexivity|].
  cbn [items]. rewrite firstn_firstn_le by lia.
  rewrite skipn_firstn_comm, IH by lia. reflexivity.
Qed.

Lemma unpack_fields_firstn (fmt : list code) (m : nat) (b : list byte) :
  (4 * length fmt <= m)%nat ->
  unpack_fields fmt (firstn m b) = unpack_fields fmt b.
Proof.
  revert m b. induction fmt as [|c fmt IH]; intros m b H; [reflexivity|].
  cbn [length] in H.
  destruct c; cbn [unpack_fields];
    rewrite firstn_firstn_le, skipn_firstn_comm, IH by lia; reflexivity.
Qed.

Lemma length_fmt_times (n : Z) :
  length (fmt_times [Ci; Cf] n) = (2 * Z.to_nat n)%nat.
Proof.
  unfold fmt_times. induction (Z.to_nat n) as [|k IH]; [reflexivity|].
  cbn [repeat concat]. rewrite length_app, IH. cbn [length]. lia.
Qed.

(** ** The two interleaved decodes agree *)

(** The pair-at-a-time loop of [MmReader1] is the bulk unpack of
    [MmReader2] followed by its pairing loop: both need the [8 * n] bytes
    of the entries and both fail with [struct.error] without them. *)
Lemma entries_loop_bulk (t : bool) (n : nat) :
  forall (docid : Z) (acc : bow) (s : stream),
    MmReader1.entries_loop t n docid acc s
    = if (8 * n <=? length s)%nat then
        match MmReader2.pairs_loop t
                (unpack_fields (concat (repeat [Ci; Cf] n)) s) docid acc with
        | Ok d => Ok (d, skipn (8 * n) s)
        | Raise e => Raise e
        end
      else Raise struct_error.
Proof.
  induction n as [|n IH]; intros docid acc s.
  - reflexivity.
  - cbn [MmReader1.entries_loop].
    unfold bind at 1. unfold read at 1.
    unfold bind at 1. unfold lift at 1. unfold unpack at 1.
    change (calcsize [Ci; Cf]) with 8%nat.
    rewrite length_firstn_eqb.
    destruct (Nat.leb_spec 8 (length s)) as [H8|H8].
    + cbn [unpack_fields repeat concat app MmReader2.pairs_loop].
      rewrite firstn_firstn_le, firstn_skipn_firstn by lia.
      destruct (swap_ids t (int32_of_bytes (firstn 4 s)) docid) as [termid docid'].
      rewrite IH, length_skipn, !skipn_skipn.
      change (4 + 4)%nat with 8%nat.
      replace (8 * S n)%nat with (8 * n + 8)%nat by lia.
      destruct (Nat.leb_spec (8 * n) (length s - 8)) as [H|H];
        destruct (Nat.leb_spec (8 * n + 8) (length s)) as [H'|H'];
        try lia; reflexivity.
    + destruct (Nat.leb_spec (8 * S n) (length s)) as [H|H]; [lia|reflexivity].
Qed.

Lemma pairs_loop_ok (t : bool) (n : nat) :
  forall (b : list byte) (docid : Z) (acc : bow),
    exists d, MmReader2.pairs_loop t
                (unpack_fields (concat (repeat [Ci; Cf] n)) b) docid acc = Ok d.
Proof.
  induction n as [|n IH]; intros b docid acc.
  - now exists acc.
  - cbn [repeat concat app unpack_fields MmReader2.pairs_loop].
    destruct (swap_ids t (int32_of_bytes (firstn 4 b)) docid) as [termid docid'].
    apply IH.
Qed.

(** What the bulk reader does on any stream. *)
Lemma next_document2_unfold (t : bool) (s : stream) :
  MmReader2.next_document t s
  = if (8 <=? length s)%nat then
      if (8 * Z.to_nat (doc_length_at s) <=? length (skipn 8 s))%nat then
        match MmReader2.pairs_loop t
                (unpack_fields (fmt_times [Ci; Cf] (doc_length_at s)) (skipn 8 s))
                (docid_at s) [] with
        | Ok d => Ok (d, skipn (8 * Z.to_nat (doc_length_at s)) (skipn 8 s))
        | Raise e => Raise e
        end
      else Raise struct_error
    else Raise struct_error.
Proof.
  unfold MmReader2.next_document. rewrite struct_subheader.
  destruct (8 <=? length s)%nat; [|reflexivity].
  unfold bind, read, lift, unpack, calcsize.
  rewrite length_fmt_times.
  replace (4 * (2 * Z.to_nat (doc_length_at s)))%nat
    with (8 * Z.to_nat (doc_length_at s))%nat by lia.
  rewrite length_firstn_eqb.
  destruct (8 * Z.to_nat (doc_length_at s) <=? length (skipn 8 s))%nat;
    [|reflexivity].
  rewrite unpack_fields_firstn by (rewrite length_fmt_times; lia).
  destruct (MmReader2.pairs_loop _ _ _ _); reflexivity.
Qed.

(** On every stream the two readers decode the next document alike. *)
Lemma next_document_eq (t : bool) (s : stream) :
  MmReader1.next_document t s = MmReader2.next_document t s.
Proof.
  rewrite next_document2_unfold.
  unfold MmReader1.next_document. rewrite struct_subheader.
  destruct (8 <=? length s)%nat; [|reflexivity].
  rewrite entries_loop_bulk. reflexivity.
Qed.

Lemma record_fits_inv (s : stream) :
  record_fits s = true ->
  (8 <= length s)%nat /\ 0 <= doc_length_at s
  /\ (record_size s <= length s)%nat.
Proof.
  unfold record_fits. rewrite !andb_true_iff, !Nat.leb_le, Z.leb_le. tauto.
Qed.

Lemma record_fits_false (s : stream) :
  ((8 <= length s)%nat -> 0 <= doc_length_at s) ->
  record_fits s = false ->
  (length s < 8)%nat
  \/ ((8 <= length s)%nat /\ 0 <= doc_length_at s
      /\ (length s < record_size s)%nat).
Proof.
  intros Hlen H. unfold record_fits in H.
  destruct (Nat.leb_spec 8 (length s)) as [H8|H8]; [|now left].
  right. specialize (Hlen H8).
  destruct (Z.leb_spec 0 (doc_length_at s)) as [_|?]; [|lia].
  cbn [andb] in H. apply Nat.leb_gt in H. auto.
Qed.

Lemma framed_MmReader2 (t : bool) :
  framed (MmReader2.next_document t) (decode_interleaved t).
Proof.
  split; intros s.
  - intros H. apply record_fits_inv in H as (H8 & Hn & Hsz).
    unfold record_size in *.
    rewrite next_document2_unfold, length_skipn, skipn_skipn.
    destruct (Nat.leb_spec 8 (length s)) as [_|?]; [|lia].
    destruct (Nat.leb_spec (8 * Z.to_nat (doc_length_at s)) (length s - 8))
      as [_|?]; [|lia].
    unfold decode_interleaved.
    rewrite doc_length_at_firstn, docid_at_firstn by lia.
    rewrite skipn_firstn_comm.
    rewrite unpack_fields_firstn by (rewrite length_fmt_times; lia).
    destruct (pairs_loop_ok t (Z.to_nat (doc_length_at s)) (skipn 8 s)
                            (docid_at s) []) as [d Hd].
    unfold fmt_times. rewrite Hd.
    now rewrite Nat.add_comm.
  - intros Hlen H. exists struct_error. split; [|reflexivity].
    rewrite next_document2_unfold.
    destruct (record_fits_false s Hlen H) as [H8|(H8 & Hn & Hsz)].
    + destruct (Nat.leb_spec 8 (length s)); [lia|reflexivity].
    + unfold record_size in Hsz. rewrite length_skipn.
      destruct (Nat.leb_spec 8 (length s)); [|reflexivity].
      destruct (Nat.leb_spec (8 * Z.to_nat (doc_length_at s)) (length s - 8));
        [lia|reflexivity].
Qed.

Lemma framed_MmReader1 (t : bool) :
  framed (MmReader1.next_document t) (decode_interleaved t).
Proof.
  destruct (framed_MmReader2 t) as [Hok Hcut].
  split; intros s; rewrite next_document_eq; auto.
Qed.

(** ** The columnar decode *)

(** What the array reader does on a stream that holds its record. *)
Lemma next_documentA_fits (s : stream) :
  record_fits s = true ->
  MmReaderArray.next_document s
  = Ok (combine (items int32_of_bytes (Z.to_nat (doc_length_at s)) (skipn 8 s))
                (items float32_of_bytes (Z.to_nat (doc_length_at s))
                       (skipn (8 + 4 * Z.to_nat (doc_length_at s)) s)),
        skipn (record_size s) s).
Proof.
  intros H. apply record_fits_inv in H as (H8 & Hn & Hsz).
  unfold record_size in *.
  unfold MmReaderArray.next_document.
  unfold bind at 1.
  rewrite fromfile_ok by (change (Z.to_nat 2) with 2%nat; lia).
  change (Z.to_nat 2) with 2%nat. change (4 * 2)%nat with 8%nat.
  cbn [items].
  rewrite firstn_skipn_firstn by lia.
  fold (doc_length_at s).
  set (n := Z.to_nat (doc_length_at s)) in *.
  unfold bind at 1.
  rewrite fromfile_ok by (rewrite ?length_skipn; fold n; lia).
  fold n. unfold bind at 1.
  rewrite fromfile_ok by (rewrite ?length_skipn; fold n; lia).
  fold n. unfold ret.
  rewrite !items_firstn by lia.
  rewrite !skipn_skipn.
  replace (4 * n + 8)%nat with (8 + 4 * n)%nat by lia.
  replace (4 * n + (8 + 4 * n))%nat with (8 + 8 * n)%nat by lia.
  reflexivity.
Qed.

Lemma framed_MmReaderArray :
  framed MmReaderArray.next_document decode_columnar.
Proof.
  split; intros s.
  - intros H. rewrite next_documentA_fits by assumption.
    apply record_fits_inv in H as (H8 & Hn & Hsz).
    unfold decode_columnar.
    rewrite doc_length_at_firstn by (unfold record_size in *; lia).
    unfold record_size in *.
    set (n := Z.to_nat (doc_length_at s)) in *.
    rewrite !skipn_firstn_comm, !items_firstn by lia.
    reflexivity.
  - intros Hlen H. unfold MmReaderArray.next_document.
    destruct (record_fits_false s Hlen H) as [H8|(H8 & Hn & Hsz)].
    + destruct (fromfile_short int32_of_bytes 2 s) as (e & He & Ht);
        [lia | change (Z.to_nat 2) with 2%nat; lia |].
      exists e. split; [|assumption].
      unfold bind at 1. now rewrite He.
    + unfold record_size in Hsz.
      unfold bind at 1.
      rewrite fromfile_ok by (change (Z.to_nat 2) with 2%nat; lia).
      change (Z.to_nat 2) with 2%nat. change (4 * 2)%nat with 8%nat.
      cbn [items].
      rewrite firstn_skipn_firstn by lia.
      fold (doc_length_at s).
      set (n := Z.to_nat (doc_length_at s)) in *.
      destruct (Nat.le_gt_cases (4 * n) (length (skipn 8 s))) as [Hfit|Hcut].
      * unfold bind at 1.
        rewrite fromfile_ok by (fold n; lia). fold n.
        destruct (fromfile_short float32_of_bytes (doc_length_at s)
                                 (skipn (4 * n) (skipn 8 s)))
          as (e & He & Ht);
          [lia | rewrite !length_skipn in *; fold n; lia |].
        exists e. split; [|assumption].
        unfold bind at 1. now rewrite He.
      * destruct (fromfile_short int32_of_bytes (doc_length_at s) (skipn 8 s))
          as (e & He & Ht); [lia | fold n; lia |].
        exists e. split; [|assumption].
        unfold bind at 1. now rewrite He.
Qed.

(** ** A pass over the records *)

Section Pass.

Variable body : M bow.
Variable dec : list byte -> bow.
Hypothesis body_framed : framed body dec.

(** Over exactly [n] whole records the loop yields the [n] decoded
    documents, in file order, and ends normally. *)
Lemma pass_whole (n : nat) :
  forall s, wf_records n s = true ->
            for_range_yield body n s = (map dec (records_of n s), Done).
Proof.
  destruct body_framed as [Hok _].
  induction n as [|n IH]; intros s H; [reflexivity|].
  cbn [wf_records] in H. apply andb_true_iff in H as [Hfit Hrest].
  cbn [for_range_yield records_of map].
  rewrite (Hok s Hfit), (IH _ Hrest). reflexivity.
Qed.

Lemma length_records_of (n : nat) (s : stream) : length (records_of n s) = n.
Proof.
  revert s. induction n as [|n IH]; intros s; [reflexivity|].
  cbn [records_of length]. now rewrite IH.
Qed.

(** Cut anywhere before their end, [n] whole records give the documents of
    the records that lie wholly before the cut, then a short-read failure
    inside the record the cut falls in. *)
Lemma pass_cut (n : nat) :
  forall s m,
    wf_records n s = true -> (m < length s)%nat ->
    exists j e,
      (j < n)%nat
      /\ (offset_of j s <= m < offset_of (S j) s)%nat
      /\ for_range_yield body n (firstn m s)
         = (firstn j (map dec (records_of n s)), Raised e)
      /\ TruncatedInput e = true.
Proof.
  destruct body_framed as [Hok Hcut].
  induction n as [|n IH]; intros s m H Hm.
  - destruct s; [cbn in Hm; lia | discriminate].
  - cbn [wf_records] in H. apply andb_true_iff in H as [Hfit Hrest].
    pose proof (record_fits_inv s Hfit) as (H8 & Hn & Hsz).
    destruct (Nat.le_gt_cases (record_size s) m) as [Hin|Hout].
    + (* the first record lies before the cut *)
      assert (Hr8 : (8 <= record_size s)%nat) by (unfold record_size; lia).
      assert (Hfit' : record_fits (firstn m s) = true).
      { unfold record_fits.
        rewrite record_size_firstn, doc_length_at_firstn by lia.
        rewrite length_firstn, Nat.min_l by lia.
        rewrite !andb_true_iff, !Nat.leb_le, Z.leb_le. lia. }
      destruct (IH (skipn (record_size s) s) (m - record_size s)%nat Hrest)
        as (j & e & Hj & Hoff & Hrun & He);
        [rewrite length_skipn; lia|].
      exists (S j), e.
      cbn [for_range_yield records_of map firstn].
      rewrite (Hok _ Hfit'), record_size_firstn by lia.
      rewrite firstn_firstn_le, skipn_firstn_comm by lia.
      rewrite Hrun.
      change (offset_of (S (S j)) s)
        with (record_size s
              + offset_of (S j) (skipn (record_size s) s))%nat.
      change (offset_of (S j) s)
        with (record_size s + offset_of j (skipn (record_size s) s))%nat.
      repeat split; try lia; assumption.
    + (* the cut falls in the first record *)
      destruct (Hcut (firstn m s)) as (e & Hbody & He).
      * intros Hl. rewrite length_firstn, Nat.min_l in Hl by lia.
        rewrite doc_length_at_firstn by lia. lia.
      * unfold record_fits. rewrite length_firstn, Nat.min_l by lia.
        destruct (Nat.leb_spec 8 m) as [Hm8|Hm8]; [|reflexivity].
        rewrite record_size_firstn, doc_length_at_firstn by lia.
        destruct (Nat.leb_spec (record_size s) m); [lia|].
        now rewrite andb_false_r.
      * exists 0%nat, e. cbn [offset_of for_range_yield firstn].
        rewrite Hbody. repeat split; try lia; assumption.
Qed.

End Pass.

(** ** Headers and whole runs *)

Lemma read_headers_struct (file : list byte) :
  MmReader1.read_headers file
  = if (12 <=? length file)%nat then
      Ok (header_num_docs file, header_num_terms file, header_num_nnz file)
    else Raise struct_error.
Proof.
  unfold MmReader1.read_headers, bind, read, lift, unpack.
  change (calcsize [Ci; Ci; Ci]) with 12%nat.
  rewrite length_firstn_eqb.
  destruct (12 <=? length file)%nat; [|reflexivity].
  cbn [unpack_fields].
  rewrite skipn_skipn. change (4 + 4)%nat with 8%nat.
  rewrite firstn_firstn_le, !firstn_skipn_firstn by lia.
  reflexivity.
Qed.

Lemma skip_headers_struct (file : list byte) :
  MmReader1.skip_headers file
  = if (12 <=? length file)%nat then Ok (tt, skipn 12 file)
    else Raise struct_error.
Proof.
  unfold MmReader1.skip_headers, bind, read, lift, unpack.
  change (calcsize [Ci; Ci; Ci]) with 12%nat.
  rewrite length_firstn_eqb.
  destruct (12 <=? length file)%nat; reflexivity.
Qed.

Lemma init1_whole (file : list byte) (t : bool) :
  (12 <= length file)%nat -> MmReader1.init file t = Ok (reader_of file t).
Proof.
  intros H. unfold MmReader1.init. rewrite read_headers_struct.
  destruct (Nat.leb_spec 12 (length file)); [reflexivity|lia].
Qed.

Lemma init2_whole (file : list byte) (t : bool) :
  (12 <= length file)%nat -> MmReader2.init file t = Ok (reader_of file t).
Proof.
  intros H. unfold MmReader2.init, MmReader2.read_headers.
  rewrite read_headers_struct.
  destruct (Nat.leb_spec 12 (length file)); [reflexivity|lia].
Qed.

Lemma initA_whole (file : list byte) (t : bool) :
  (12 <= length file)%nat -> MmReaderArray.init file t = Ok (reader_of file t).
Proof.
  intros H. unfold MmReaderArray.init, MmReaderArray.read_headers.
  rewrite fromfile_ok by (change (Z.to_nat 3) with 3%nat; lia).
  change (Z.to_nat 3) with 3%nat. change (4 * 3)%nat with 12%nat.
  cbn [items].
  rewrite skipn_skipn. change (4 + 4)%nat with 8%nat.
  rewrite firstn_firstn_le, !firstn_skipn_firstn by lia.
  reflexivity.
Qed.

Lemma iter1_whole (file : list byte) (t : bool) :
  (12 <= length file)%nat ->
  MmReader1.iter (reader_of file t)
  = for_range_yield (MmReader1.next_document t)
                    (Z.to_nat (header_num_docs file)) (skipn 12 file).
Proof.
  intros H. unfold MmReader1.iter. cbn [input transposed num_docs reader_of].
  rewrite skip_headers_struct.
  destruct (Nat.leb_spec 12 (length file)); [reflexivity|lia].
Qed.

Lemma iter2_whole (file : list byte) (t : bool) :
  (12 <= length file)%nat ->
  MmReader2.iter (reader_of file t)
  = for_range_yield (MmReader2.next_document t)
                    (Z.to_nat (header_num_docs file)) (skipn 12 file).
Proof.
  intros H. unfold MmReader2.iter, MmReader2.skip_headers.
  cbn [input transposed num_docs reader_of].
  rewrite skip_headers_struct.
  destruct (Nat.leb_spec 12 (length file)); [reflexivity|lia].
Qed.

Lemma iterA_whole (file : list byte) (t : bool) :
  (12 <= length file)%nat ->
  MmReaderArray.iter (reader_of file t)
  = for_range_yield MmReaderArray.next_document
                    (Z.to_nat (header_num_docs file)) (skipn 12 file).
Proof.
  intros H. unfold MmReaderArray.iter, MmReaderArray.skip_headers.
  cbn [input transposed num_docs reader_of].
  unfold bind.
  rewrite fromfile_ok by (change (Z.to_nat 3) with 3%nat; lia).
  reflexivity.
Qed.

Lemma init_struct_short (file : list byte) (t : bool) :
  (length file < 12)%nat -> MmReader1.init file t = Raise struct_error.
Proof.
  intros H. unfold MmReader1.init. rewrite read_headers_struct.
  destruct (Nat.leb_spec 12 (length file)); [lia|reflexivity].
Qed.

Lemma init2_short (file : list byte) (t : bool) :
  (length file < 12)%nat -> MmReader2.init file t = Raise struct_error.
Proof.
  intros H. unfold MmReader2.init, MmReader2.read_headers.
  rewrite read_headers_struct.
  destruct (Nat.leb_spec 12 (length file)); [lia|reflexivity].
Qed.

Lemma initA_short (file : list byte) (t : bool) :
  (length file < 12)%nat ->
  exists e, MmReaderArray.init file t = Raise e /\ TruncatedInput e = true.
Proof.
  intros H.
  destruct (fromfile_short int32_of_bytes 3 file) as (e & He & Ht);
    [lia | change (Z.to_nat 3) with 3%nat; lia |].
  exists e. split; [|assumption].
  unfold MmReaderArray.init, MmReaderArray.read_headers. now rewrite He.
Qed.

(** A run is the constructor followed by one pass; on a file that holds
    its header the pass is the loop over what follows the header. *)
Lemma run1_whole (file : list byte) (t : bool) :
  (12 <= length file)%nat ->
  run1 file t = for_range_yield (MmReader1.next_document t)
                  (Z.to_nat (header_num_docs file)) (skipn 12 file).
Proof.
  intros H. unfold run1, run. rewrite init1_whole by assumption.
  now apply iter1_whole.
Qed.

Lemma run2_whole (file : list byte) (t : bool) :
  (12 <= length file)%nat ->
  run2 file t = for_range_yield (MmReader2.next_document t)
                  (Z.to_nat (header_num_docs file)) (skipn 12 file).
Proof.
  intros H. unfold run2, run. rewrite init2_whole by assumption.
  now apply iter2_whole.
Qed.

Lemma runA_whole (file : list byte) (t : bool) :
  (12 <= length file)%nat ->
  runArray file t = for_range_yield MmReaderArray.next_document
                      (Z.to_nat (header_num_docs file)) (skipn 12 file).
Proof.
  intros H. unfold runArray, run. rewrite initA_whole by assumption.
  now apply iterA_whole.
Qed.

Lemma well_formed_inv (file : list byte) :
  well_formed file = true ->
  (12 <= length file)%nat /\ 0 <= header_num_docs file
  /\ wf_records (Z.to_nat (header_num_docs file)) (skipn 12 file) = true.
Proof.
  unfold well_formed. rewrite !andb_true_iff, Nat.leb_le, Z.leb_le. tauto.
Qed.

Lemma for_range_yield_ext {A} (body body' : M A) :
  (forall s, body s = body' s) ->
  forall n s, for_range_yield body n s = for_range_yield body' n s.
Proof.
  intros E n. induction n as [|n IH]; intros s; [reflexivity|].
  cbn [for_range_yield]. rewrite E.
  destruct (body' s) as [[d s']|e]; [|reflexivity].
  now rewrite IH.
Qed.

(** On every file the two interleaved readers make the same run. *)
Lemma run1_run2 (file : list byte) (t : bool) : run1 file t = run2 file t.
Proof.
  destruct (Nat.le_gt_cases 12 (length file)) as [H|H].
  - rewrite run1_whole, run2_whole by assumption.
    apply for_range_yield_ext, next_document_eq.
  - unfold run1, run2, run.
    now rewrite init_struct_short, init2_short by assumption.
Qed.

(** ** Whole files *)

Section WholeFile.

Variable run : list byte -> bool -> list bow * outcome.
Variable body : bool -> M bow.
Variable dec : bool -> list byte -> bow.

Hypothesis run_whole :
  forall file t, (12 <= length file)%nat ->
    run file t = for_range_yield (body t) (Z.to_nat (header_num_docs file))
                                 (skipn 12 file).
Hypothesis run_short :
  forall file t, (length file < 12)%nat ->
    exists e, run file t = ([], Raised e) /\ TruncatedInput e = true.
Hypothesis body_framed : forall t, framed (body t) (dec t).

Lemma run_well_formed (file : list byte) (t : bool) :
  well_formed file = true ->
  run file t
  = (map (dec t) (records_of (Z.to_nat (header_num_docs file)) (skipn 12 file)),
     Done).
Proof.
  intros H. apply well_formed_inv in H as (H12 & _ & Hrec).
  rewrite run_whole by assumption.
  now apply pass_whole.
Qed.

Lemma header_num_docs_firstn (file : list byte) (k : nat) :
  (4 <= k)%nat -> header_num_docs (firstn k file) = header_num_docs file.
Proof. intros H. unfold header_num_docs. now rewrite firstn_firstn_le. Qed.

Lemma run_truncated (file : list byte) (k : nat) (t : bool) :
  well_formed file = true -> (k < length file)%nat ->
  truncated_pass run file k t.
Proof.
  intros H Hk. unfold truncated_pass.
  rewrite (run_well_formed file t H). cbn [fst].
  apply well_formed_inv in H as (H12 & Hnd & Hrec).
  destruct (Nat.ltb_spec k 12) as [Hlt|Hge].
  - destruct (run_short (firstn k file) t) as (e & He & Ht).
    { rewrite length_firstn. lia. }
    exists 0%nat, e. rewrite He. auto.
  - destruct (pass_cut (body t) (dec t) (body_framed t) _
                       (skipn 12 file) (k - 12)%nat Hrec)
      as (j & e & Hj & Hoff & Hrun & Ht).
    { rewrite length_skipn. lia. }
    exists j, e. split; [assumption|]. split.
    + rewrite run_whole by (rewrite length_firstn; lia).
      rewrite header_num_docs_firstn by lia.
      rewrite skipn_firstn_comm. exact Hrun.
    + split; [assumption|lia].
Qed.

End WholeFile.

Lemma run1_short (file : list byte) (t : bool) :
  (length file < 12)%nat ->
  exists e, run1 file t = ([], Raised e) /\ TruncatedInput e = true.
Proof.
  intros H. exists struct_error. unfold run1, run.
  now rewrite init_struct_short.
Qed.

Lemma run2_short (file : list byte) (t : bool) :
  (length file < 12)%nat ->
  exists e, run2 file t = ([], Raised e) /\ TruncatedInput e = true.
Proof.
  intros H. exists struct_error. unfold run2, run.
  now rewrite init2_short.
Qed.

Lemma runA_short (file : list byte) (t : bool) :
  (length file < 12)%nat ->
  exists e, runArray file t = ([], Raised e) /\ TruncatedInput e = true.
Proof.
  intros H. destruct (initA_short file t H) as (e & He & Ht).
  exists e. unfold runArray, run. now rewrite He.
Qed.

Lemma yields_header_count_intro
      (init : list byte -> bool -> result reader)
      (iter : reader -> list bow * outcome)
      (body : M bow) (dec : list byte -> bow)
      (file : list byte) (t : bool) :
  framed body dec ->
  init file t = Ok (reader_of file t) ->
  iter (reader_of file t)
  = for_range_yield body (Z.to_nat (header_num_docs file)) (skipn 12 file) ->
  well_formed file = true ->
  yields_header_count init iter file t.
Proof.
  intros Hf Hinit Hiter H.
  apply well_formed_inv in H as (H12 & Hnd & Hrec).
  exists (reader_of file t),
         (map dec (records_of (Z.to_nat (header_num_docs file))
                              (skipn 12 file))).
  repeat split.
  - assumption.
  - rewrite Hiter. now apply pass_whole.
  - rewrite length_map, length_records_of. cbn [num_docs reader_of]. lia.
Qed.

(** C4: on a well-formed file each of the three readers is constructed
    with the header's document count and a full pass ends normally after
    yielding exactly that many items.  Well-formedness puts no condition
    on the sub-headers' ids or on the entries, so the count depends on
    neither. *)
Theorem count_invariant (file : list byte) (t : bool) :
  well_formed file = true ->
  yields_header_count MmReader1.init MmReader1.iter file t
  /\ yields_header_count MmReader2.init MmReader2.iter file t
  /\ yields_header_count MmReaderArray.init MmReaderArray.iter file t.
Proof.
  intros H. pose proof (well_formed_inv file H) as (H12 & _ & _).
  split; [|split].
  - apply (yields_header_count_intro _ _ _ _ _ _ (framed_MmReader1 t));
      auto using init1_whole, iter1_whole.
  - apply (yields_header_count_intro _ _ _ _ _ _ (framed_MmReader2 t));
      auto using init2_whole, iter2_whole.
  - apply (yields_header_count_intro _ _ _ _ _ _ framed_MmReaderArray);
      auto using initA_whole, iterA_whole.
Qed.

Lemma count_invariant_witness :
  yields_header_count MmReader1.init MmReader1.iter sample_with_empty false
  /\ yields_header_count MmReader2.init MmReader2.iter sample_with_empty false
  /\ yields_header_count MmReaderArray.init MmReaderArray.iter
                         sample_with_empty false.
Proof. apply (count_invariant sample_with_empty false). reflexivity. Defined.

(** C5: on a well-formed interleaved file, whatever the [transposed]
    flag, the per-entry reader and the bulk reader make the same pass: the
    same documents in the same order, both ending normally. *)
Theorem bulk_read_equivalent (file : list byte) (t : bool) :
  well_formed file = true ->
  exists ds, run1 file t = (ds, Done) /\ run2 file t = (ds, Done).
Proof.
  intros H.
  exists (map (decode_interleaved t)
              (records_of (Z.to_nat (header_num_docs file)) (skipn 12 file))).
  split.
  - apply (run_well_formed run1 MmReader1.next_document decode_interleaved);
      auto using run1_whole, framed_MmReader1.
  - apply (run_well_formed run2 MmReader2.next_document decode_interleaved);
      auto using run2_whole, framed_MmReader2.
Qed.

Lemma bulk_read_equivalent_witness :
  exists ds, run1 sample_interleaved false = (ds, Done)
             /\ run2 sample_interleaved false = (ds, Done).
Proof. apply (bulk_read_equivalent sample_interleaved false). reflexivity. Defined.

(** C6: cut a well-formed file at any offset before its end and each
    reader fails with a short-read exception inside the record (or the
    header) the offset falls in, having yielded exactly the documents of
    the records that lie wholly before the cut, each of them as in the
    pass over the whole file: no shortened document, no empty one in its
    place, nothing after the failure. *)
Theorem truncation_detected (file : list byte) (k : nat) (t : bool) :
  well_formed file = true -> (k < length file)%nat ->
  truncated_pass run1 file k t
  /\ truncated_pass run2 file k t
  /\ truncated_pass runArray file k t.
Proof.
  intros H Hk. split; [|split].
  - apply (run_truncated run1 MmReader1.next_document decode_interleaved);
      auto using run1_whole, run1_short, framed_MmReader1.
  - apply (run_truncated run2 MmReader2.next_document decode_interleaved);
      auto using run2_whole, run2_short, framed_MmReader2.
  - apply (run_truncated runArray (fun _ => MmReaderArray.next_document)
                         (fun _ => decode_columnar));
      auto using runA_whole, runA_short, framed_MmReaderArray.
Qed.

Lemma truncation_detected_witness :
  truncated_pass run1 sample_with_empty 30 true
  /\ truncated_pass run2 sample_with_empty 30 true
  /\ truncated_pass runArray sample_with_empty 30 true.
Proof.
  apply (truncation_detected sample_with_empty 30 true).
  - reflexivity.
  - vm_compute. lia.
Defined.

(** ** Empty documents *)

Lemma empty_record_skipped_intro (body : M bow) (dec : list byte -> bow)
      (s : stream) :
  framed body dec ->
  (forall r, doc_length_at r = 0 -> dec r = []) ->
  (8 <= length s)%nat -> doc_length_at s = 0 ->
  empty_record_skipped body s.
Proof.
  intros [Hok _] Hdec H8 H0.
  assert (Hsz : record_size s = 8%nat) by (unfold record_size; now rewrite H0).
  assert (Hbody : body s = Ok ([], skipn 8 s)).
  { rewrite Hok.
    - rewrite Hsz, Hdec; [reflexivity|].
      now rewrite doc_length_at_firstn.
    - unfold record_fits. rewrite Hsz, H0.
      rewrite !andb_true_iff, !Nat.leb_le, Z.leb_le. lia. }
  split; [assumption|].
  intros n. cbn [for_range_yield]. rewrite Hbody.
  now destruct (for_range_yield body n (skipn 8 s)).
Qed.

Lemma decode_interleaved_empty (t : bool) (r : list byte) :
  doc_length_at r = 0 -> decode_interleaved t r = [].
Proof. intros H. unfold decode_interleaved. now rewrite H. Qed.

Lemma decode_columnar_empty (r : list byte) :
  doc_length_at r = 0 -> decode_columnar r = [].
Proof. intros H. unfold decode_columnar. now rewrite H. Qed.

(** C10: where the stream holds a sub-header whose [doc_length] is zero,
    each reader's loop body returns a document with no entry and leaves
    the stream just after the sub-header's eight bytes, having taken no
    byte of entries; the pass does not stop there: a loop with turns left
    yields the empty document and goes on with the next record. *)
Theorem empty_document (s : stream) (t : bool) :
  (8 <= length s)%nat -> doc_length_at s = 0 ->
  empty_record_skipped (MmReader1.next_document t) s
  /\ empty_record_skipped (MmReader2.next_document t) s
  /\ empty_record_skipped MmReaderArray.next_document s.
Proof.
  intros H8 H0. split; [|split].
  - apply (empty_record_skipped_intro _ _ _ (framed_MmReader1 t));
      auto using decode_interleaved_empty.
  - apply (empty_record_skipped_intro _ _ _ (framed_MmReader2 t));
      auto using decode_interleaved_empty.
  - apply (empty_record_skipped_intro _ _ _ framed_MmReaderArray);
      auto using decode_columnar_empty.
Qed.

Lemma empty_document_witness :
  empty_record_skipped (MmReader1.next_document false)
                       (skipn 28 sample_with_empty)
  /\ empty_record_skipped (MmReader2.next_document false)
                          (skipn 28 sample_with_empty)
  /\ empty_record_skipped MmReaderArray.next_document
                          (skipn 28 sample_with_empty).
Proof.
  apply (empty_document (skipn 28 sample_with_empty) false).
  - vm_compute. lia.
  - reflexivity.
Defined.

(** ** The writer *)

Lemma array_i_in_range (l : list Z) :
  forallb in_int32 l = true -> array_i l = Ok l.
Proof.
  induction l as [|x l IH]; intros H; [reflexivity|].
  cbn [forallb] in H. apply andb_true_iff in H as [Hx Hl].
  cbn [array_i]. now rewrite Hx, IH.
Qed.

Lemma fill_arrays_in_range (doc : bow) :
  forallb (fun e => in_int32 (fst e)) doc = true ->
  forall termids values,
    MmReaderArray.fill_arrays doc termids values
    = Ok (termids ++ map fst doc, values ++ map snd doc).
Proof.
  induction doc as [|[termid value] doc IH]; intros H termids values.
  - cbn. now rewrite !app_nil_r.
  - cbn [forallb fst] in H. apply andb_true_iff in H as [Hx Hl].
    cbn [MmReaderArray.fill_arrays map fst snd].
    rewrite Hx, IH by assumption.
    now rewrite <- !app_assoc.
Qed.

Lemma save_document_in_range (docid : Z) (doc : bow) (f : ofile) :
  in_int32 docid = true -> doc_in_range doc = true ->
  MmReaderArray.save_document docid doc f
  = (Ok tt, mkOfile (written f ++ columnar_record docid doc) (closed f)).
Proof.
  intros Hid Hdoc. apply andb_true_iff in Hdoc as [Hlen Hterms].
  unfold MmReaderArray.save_document, wbind, wlift, tofile_i, tofile_f, write.
  rewrite array_i_in_range
    by (cbn [forallb]; now rewrite Hid, Hlen).
  rewrite fill_arrays_in_range by assumption.
  cbn [fst snd written closed app map concat].
  unfold columnar_record. rewrite app_nil_r, <- !app_assoc.
  reflexivity.
Qed.

Lemma save_documents_in_range (docs : list bow) :
  forallb doc_in_range docs = true ->
  forall (docid : Z) (f : ofile),
    0 <= docid -> docid + Z.of_nat (length docs) <= 2 ^ 31 ->
    MmReaderArray.save_documents docid docs f
    = (Ok tt, mkOfile (written f ++ columnar_records docid docs) (closed f)).
Proof.
  induction docs as [|doc docs IH]; intros H docid f H0 Hmax.
  - cbn. rewrite app_nil_r. now destruct f.
  - cbn [forallb] in H. apply andb_true_iff in H as [Hdoc Hdocs].
    cbn [length] in Hmax.
    cbn [MmReaderArray.save_documents columnar_records]. unfold wbind.
    rewrite save_document_in_range;
      [|apply in_int32_range; lia | assumption].
    rewrite IH by (assumption || lia).
    cbn [written closed]. now rewrite <- app_assoc.
Qed.

Lemma corpus_in_range_inv (c : corpus) :
  corpus_in_range c = true ->
  in_int32 (corpus_num_docs c) = true
  /\ in_int32 (corpus_num_terms c) = true
  /\ in_int32 (corpus_num_nnz c) = true
  /\ Z.of_nat (length (corpus_docs c)) <= 2 ^ 31 - 1
  /\ forallb doc_in_range (corpus_docs c) = true.
Proof.
  unfold corpus_in_range. rewrite !andb_true_iff.
  intros ((((H1 & H2) & H3) & H4) & H5).
  apply in_int32_range in H4. repeat split; try assumption. lia.
Qed.

(** With every integer a C [int], [save_corpus] returns normally and
    leaves the file closed, holding the header it was given and one record
    per document it was given. *)
Lemma save_corpus_in_range (c : corpus) :
  corpus_in_range c = true ->
  MmReaderArray.save_corpus c = (Ok tt, mkOfile (columnar_file c) true).
Proof.
  intros H. apply corpus_in_range_inv in H as (H1 & H2 & H3 & H4 & H5).
  unfold MmReaderArray.save_corpus, wbind, wlift, tofile_i, write, close.
  rewrite array_i_in_range by (cbn [forallb]; now rewrite H1, H2, H3).
  rewrite save_documents_in_range by (assumption || cbn [written]; lia).
  cbn [written closed smart_open_wb app map concat].
  unfold columnar_file. rewrite app_nil_r, <- !app_assoc. reflexivity.
Qed.

(** ** Reading back what was written *)

Lemma firstn_app_length {A} (n : nat) (l r : list A) :
  length l = n -> firstn n (l ++ r) = l.
Proof.
  intros <-. rewrite firstn_app, Nat.sub_diag, firstn_all. cbn.
  apply app_nil_r.
Qed.

Lemma skipn_app_length {A} (n : nat) (l r : list A) :
  length l = n -> skipn n (l ++ r) = r.
Proof.
  intros <-. rewrite skipn_app, Nat.sub_diag, skipn_all. reflexivity.
Qed.

Lemma items_concat {A} (item : list byte -> A) (enc : A -> list byte)
      (l : list A) (rest : list byte) :
  (forall x, In x l -> length (enc x) = 4%nat /\ item (enc x) = x) ->
  items item (length l) (concat (map enc l) ++ rest) = l.
Proof.
  induction l as [|x l IH]; intros H; [reflexivity|].
  destruct (H x (or_introl eq_refl)) as [Hlen Hx].
  cbn [length items map concat]. rewrite <- app_assoc.
  rewrite firstn_app_length, skipn_app_length, Hx by assumption.
  rewrite IH; [reflexivity|]. intros y Hy. apply H. now right.
Qed.

Lemma length_concat_fixed {A} (enc : A -> list byte) (l : list A) :
  (forall x, length (enc x) = 4%nat) ->
  length (concat (map enc l)) = (4 * length l)%nat.
Proof.
  intros H. induction l as [|x l IH]; [reflexivity|].
  cbn [map concat length]. rewrite length_app, H, IH. lia.
Qed.

Lemma combine_fst_snd {A B} (l : list (A * B)) :
  combine (map fst l) (map snd l) = l.
Proof.
  induction l as [|[a b] l IH]; [reflexivity|].
  cbn [map combine fst snd]. now rewrite IH.
Qed.

(** The array reader gets back the document [save_corpus] wrote, and is
    left at the end of its record. *)
Lemma next_document_columnar_record (docid : Z) (doc : bow) (rest : stream) :
  doc_in_range doc = true ->
  MmReaderArray.next_document (columnar_record docid doc ++ rest)
  = Ok (doc, rest).
Proof.
  intros H. apply andb_true_iff in H as [Hlen Hterms].
  set (n := length doc).
  set (ts := concat (map bytes_of_int32 (map fst doc))).
  set (vs := concat (map bytes_of_float32 (map snd doc))).
  assert (Hts : length ts = (4 * n)%nat).
  { subst ts n. rewrite length_concat_fixed, length_map;
      auto using length_bytes_of_int32. }
  assert (Hvs : length vs = (4 * n)%nat).
  { subst vs n. rewrite length_concat_fixed, length_map;
      auto using length_bytes_of_float32. }
  assert (Hs : columnar_record docid doc ++ rest
               = bytes_of_int32 docid
                 ++ bytes_of_int32 (Z.of_nat n) ++ ts ++ vs ++ rest).
  { unfold columnar_record. now rewrite <- !app_assoc. }
  rewrite Hs. clear Hs.
  set (s := bytes_of_int32 docid ++ bytes_of_int32 (Z.of_nat n)
            ++ ts ++ vs ++ rest).
  assert (Hskip4 : skipn 4 s = bytes_of_int32 (Z.of_nat n) ++ ts ++ vs ++ rest)
    by (apply skipn_app_length, length_bytes_of_int32).
  assert (Hskip8 : skipn 8 s = ts ++ vs ++ rest).
  { change 8%nat with (4 + 4)%nat. rewrite <- skipn_skipn, Hskip4.
    apply skipn_app_length, length_bytes_of_int32. }
  assert (Hdl : doc_length_at s = Z.of_nat n).
  { unfold doc_length_at. rewrite Hskip4.
    rewrite firstn_app_length by apply length_bytes_of_int32.
    now apply int32_of_bytes_of_int32. }
  assert (Hlen_s : length s = (8 + 8 * n + length rest)%nat).
  { subst s. rewrite !length_app, !length_bytes_of_int32, Hts, Hvs. lia. }
  rewrite next_documentA_fits.
  - unfold record_size. rewrite Hdl, Nat2Z.id, Hskip8.
    replace (8 + 4 * n)%nat with (4 * n + 8)%nat by lia.
    replace (8 + 8 * n)%nat with (4 * n + (4 * n + 8))%nat by lia.
    rewrite <- !skipn_skipn, Hskip8.
    rewrite (skipn_app_length (4 * n) ts) by assumption.
    rewrite (skipn_app_length (4 * n) vs) by assumption.
    subst ts vs n.
    rewrite <- (length_map fst doc) at 1.
    rewrite items_concat.
    + rewrite <- (length_map snd doc) at 1.
      rewrite items_concat.
      * now rewrite combine_fst_snd.
      * intros w _. split;
          [apply length_bytes_of_float32 | apply float32_of_bytes_of_float32].
    + intros x Hx. split; [apply length_bytes_of_int32|].
      apply int32_of_bytes_of_int32.
      apply in_map_iff in Hx as ([termid value] & <- & Hin).
      rewrite forallb_forall in Hterms. exact (Hterms _ Hin).
  - unfold record_fits, record_size. rewrite Hdl, Nat2Z.id, Hlen_s.
    rewrite !andb_true_iff, !Nat.leb_le, Z.leb_le. lia.
Qed.

Lemma for_range_yield_columnar_records (docs : list bow) :
  forallb doc_in_range docs = true ->
  forall docid,
    for_range_yield MmReaderArray.next_document (length docs)
                    (columnar_records docid docs)
    = (docs, Done).
Proof.
  induction docs as [|doc docs IH]; intros H docid; [reflexivity|].
  cbn [forallb] in H. apply andb_true_iff in H as [Hdoc Hdocs].
  cbn [length for_range_yield columnar_records].
  rewrite next_document_columnar_record by assumption.
  now rewrite IH.
Qed.




(** ** Declared and supplied document counts *)

(** C8, amended: [save_corpus] never compares the declared [num_docs]
    with the documents it is given.  Whatever count is declared, as long
    as every integer to store is a C [int], the call returns normally and
    leaves the file closed, holding the header as declared and one record
    per document given. *)
Theorem save_corpus_trusts_declared_count (c : corpus) (declared : Z) :
  corpus_in_range c = true -> in_int32 declared = true ->
  MmReaderArray.save_corpus
    (mkCorpus declared (corpus_num_terms c) (corpus_num_nnz c) (corpus_docs c))
  = (Ok tt,
     mkOfile (bytes_of_int32 declared ++ bytes_of_int32 (corpus_num_terms c)
              ++ bytes_of_int32 (corpus_num_nnz c)
              ++ columnar_records 0 (corpus_docs c))
             true).
Proof.
  intros H Hd. apply corpus_in_range_inv in H as (H1 & H2 & H3 & H4 & H5).
  apply save_corpus_in_range.
  unfold corpus_in_range.
  cbn [corpus_num_docs corpus_num_terms corpus_num_nnz corpus_docs].
  rewrite Hd, H2, H3, H5.
  replace (in_int32 (Z.of_nat (length (corpus_docs c)))) with true;
    [reflexivity|].
  symmetry. apply in_int32_range. lia.
Qed.

Lemma save_corpus_trusts_declared_count_witness :
  MmReaderArray.save_corpus
    (mkCorpus 7 (corpus_num_terms sample_corpus) (corpus_num_nnz sample_corpus)
              (corpus_docs sample_corpus))
  = (Ok tt,
     mkOfile (bytes_of_int32 7 ++ bytes_of_int32 (corpus_num_terms sample_corpus)
              ++ bytes_of_int32 (corpus_num_nnz sample_corpus)
              ++ columnar_records 0 (corpus_docs sample_corpus))
             true).
Proof.
  apply (save_corpus_trusts_declared_count sample_corpus 7); reflexivity.
Defined.

(** C8, as stated, fails: a corpus that declares five documents and
    supplies one is written without any error. *)
Lemma miscount_completes_silently :
  corpus_num_docs miscounted_corpus
  <> Z.of_nat (length (corpus_docs miscounted_corpus))
  /\ MmReaderArray.save_corpus miscounted_corpus
     = (Ok tt, mkOfile (columnar_file miscounted_corpus) true).
Proof. split; [discriminate | reflexivity]. Qed.

(** ** Release of the output file *)

(** On the normal path the file is closed. *)
Lemma save_corpus_ok_closed (c : corpus) :
  fst (MmReaderArray.save_corpus c) = Ok tt ->
  closed (snd (MmReaderArray.save_corpus c)) = true.
Proof.
  unfold MmReaderArray.save_corpus, wbind, wlift, close, tofile_i, write.
  destruct (array_i _) as [header|e]; [|discriminate].
  match goal with
  | |- context [MmReaderArray.save_documents ?i ?d ?f] =>
      destruct (MmReaderArray.save_documents i d f) as [[[]|e] f']
  end; [reflexivity | discriminate].
Qed.

(** C7: the second document of [overflowing_corpus] holds the term id
    [2 ^ 31]; [termids.append] raises [OverflowError] after the header, the
    first record and the second sub-header have been written, the
    exception leaves [save_corpus], and the file has not been closed. *)
Theorem save_corpus_error_leaves_file_open :
  MmReaderArray.save_corpus overflowing_corpus
  = (Raise OverflowError,
     mkOfile (bytes_of_int32 2 ++ bytes_of_int32 3 ++ bytes_of_int32 2
              ++ columnar_record 0 [(1, w2_5)]
              ++ bytes_of_int32 1 ++ bytes_of_int32 1)
             false).
Proof. reflexivity. Qed.

(** ** The transposition flag *)

(** [MmReaderArray] never looks at the flag. *)
Lemma runArray_ignores_transposed (file : list byte) (t : bool) :
  runArray file t = runArray file true.
Proof.
  unfold runArray, run, MmReaderArray.init.
  destruct (MmReaderArray.read_headers file) as [[[nd nt] nnz]|e]; reflexivity.
Qed.

(** With [transposed] true the pairing loop hands back the entries as
    stored. *)
Lemma pairs_loop_transposed (es : bow) :
  forall docid acc,
    MmReader2.pairs_loop true (tuple_of es) docid acc = Ok (acc ++ es).
Proof.
  induction es as [|[termid value] es IH]; intros docid acc.
  - cbn. now rewrite app_nil_r.
  - cbn [tuple_of map concat app fst snd MmReader2.pairs_loop swap_ids negb].
    fold (tuple_of es). rewrite IH. now rewrite <- app_assoc.
Qed.

(** With [transposed] false it gives each weight the id left in [docid]
    by the turn before: the sub-header id for the first entry only. *)
Lemma pairs_loop_not_transposed (es : bow) :
  forall docid acc,
    MmReader2.pairs_loop false (tuple_of es) docid acc
    = Ok (acc ++ combine (drifted_ids docid (map fst es)) (map snd es)).
Proof.
  induction es as [|[termid value] es IH]; intros docid acc.
  - cbn. now rewrite app_nil_r.
  - cbn [tuple_of map concat app fst snd MmReader2.pairs_loop swap_ids negb].
    fold (tuple_of es). rewrite IH.
    unfold drifted_ids. cbn [length firstn combine].
    now rewrite <- app_assoc.
Qed.

(** C1: [sample_interleaved] holds one record with sub-header id 0 and
    the entries (1, 2.5), (2, 4.0).  Read with [transposed] true it gives
    those two entries; swapping by hand would give (0, 2.5), (0, 4.0).
    Read with [transposed] false, both readers give (0, 2.5), (1, 4.0):
    the swap overwrites [docid], so the second entry carries the first
    entry's term id and not the sub-header id. *)
Theorem transposition_swap_drifts :
  well_formed sample_interleaved = true
  /\ run1 sample_interleaved true = ([[(1, w2_5); (2, w4_0)]], Done)
  /\ run1 sample_interleaved false = ([[(0, w2_5); (1, w4_0)]], Done)
  /\ run2 sample_interleaved false = ([[(0, w2_5); (1, w4_0)]], Done)
  /\ [(0, w2_5); (1, w4_0)] <> [(0, w2_5); (0, w4_0)].
Proof. repeat split; try reflexivity. discriminate. Qed.

(** C2: [sample_columnar] holds one record with sub-header id 0 and the
    entry (1, 2.5).  Constructed with [transposed] false, [MmReaderArray]
    yields the entry (1, 2.5) as stored, the same as with [transposed]
    true; the swap would give (0, 2.5). *)
Theorem columnar_decode_never_swaps :
  well_formed sample_columnar = true
  /\ docid_at (skipn 12 sample_columnar) = 0
  /\ runArray sample_columnar false = ([[(1, w2_5)]], Done)
  /\ runArray sample_columnar true = ([[(1, w2_5)]], Done)
  /\ [(1, w2_5)] <> [(0, w2_5)].
Proof. repeat split; try reflexivity. discriminate. Qed.

(** ** What an item carries *)

(** C9: two files that differ only in the id of their record's sub-header
    give the same items: an item is the list of entries and carries no
    document id. *)
Theorem yielded_item_has_no_doc_id :
  well_formed sample_interleaved_id7 = true
  /\ well_formed sample_columnar_id7 = true
  /\ run1 sample_interleaved true = ([[(1, w2_5); (2, w4_0)]], Done)
  /\ run1 sample_interleaved_id7 true = ([[(1, w2_5); (2, w4_0)]], Done)
  /\ run2 sample_interleaved_id7 true = ([[(1, w2_5); (2, w4_0)]], Done)
  /\ runArray sample_columnar true = ([[(1, w2_5)]], Done)
  /\ runArray sample_columnar_id7 true = ([[(1, w2_5)]], Done)
  /\ docid_at (skipn 12 sample_interleaved_id7) = 7
  /\ docid_at (skipn 12 sample_columnar_id7) = 7.
Proof. repeat split; reflexivity. Qed.

(** * Further properties of the readers *)

(** ** What bounds a pass *)

Lemma for_range_yield_bounded {A} (body : M A) (n : nat) :
  forall s,
    (length (fst (for_range_yield body n s)) <= n)%nat
    /\ (snd (for_range_yield body n s) = Done ->
        length (fst (for_range_yield body n s)) = n).
Proof.
  induction n as [|n IH]; intros s; [cbn; auto|].
  cbn [for_range_yield].
  destruct (body s) as [[d s']|e].
  - destruct (IH s') as [Hle Hdone].
    destruct (for_range_yield body n s') as [ds o]. cbn [fst snd length] in *.
    split; [lia|]. intros Ho. now rewrite Hdone.
  - cbn. split; [lia|discriminate].
Qed.

(** X1: whatever reader object a pass is made on, and whatever its file
    holds, the pass yields at most [len(self)] items (none when that is
    negative), and a pass that ends normally has yielded exactly that
    many. *)
Theorem pass_bounded_by_num_docs (self : reader) :
  pass_bounded (len self) (MmReader1.iter self)
  /\ pass_bounded (len self) (MmReader2.iter self)
  /\ pass_bounded (len self) (MmReaderArray.iter self).
Proof.
  unfold pass_bounded, len.
  unfold MmReader1.iter, MmReader2.iter, MmReaderArray.iter.
  split; [|split].
  - destruct (MmReader1.skip_headers (input self)) as [[[] f]|e].
    + apply for_range_yield_bounded.
    + cbn. split; [lia|discriminate].
  - destruct (MmReader2.skip_headers (input self)) as [[[] f]|e].
    + apply for_range_yield_bounded.
    + cbn. split; [lia|discriminate].
  - destruct (MmReaderArray.skip_headers (input self)) as [[[] f]|e].
    + apply for_range_yield_bounded.
    + cbn. split; [lia|discriminate].
Qed.

(** X2: a header whose document count is zero or negative makes every
    reader's pass end normally without yielding anything, whatever follows
    the header. *)
Theorem nonpositive_num_docs_yields_nothing (file : list byte) (t : bool) :
  (12 <= length file)%nat -> header_num_docs file <= 0 ->
  run1 file t = ([], Done)
  /\ run2 file t = ([], Done)
  /\ runArray file t = ([], Done).
Proof.
  intros H12 Hnd.
  rewrite run1_whole, run2_whole, runA_whole by assumption.
  replace (Z.to_nat (header_num_docs file)) with 0%nat by lia.
  repeat split.
Qed.

Lemma nonpositive_num_docs_yields_nothing_witness :
  run1 sample_negative_count true = ([], Done)
  /\ run2 sample_negative_count true = ([], Done)
  /\ runArray sample_negative_count true = ([], Done).
Proof.
  apply (nonpositive_num_docs_yields_nothing sample_negative_count true).
  - vm_compute. lia.
  - vm_compute. discriminate.
Defined.

(** ** A negative entry count *)

(** X3: a sub-header whose [doc_length] is negative is an empty document
    for the two [struct] readers, which go on after its eight bytes, and a
    [ValueError] for the [array] reader. *)
Theorem negative_doc_length (s : stream) (t : bool) :
  (8 <= length s)%nat -> doc_length_at s < 0 ->
  MmReader1.next_document t s = Ok ([], skipn 8 s)
  /\ MmReader2.next_document t s = Ok ([], skipn 8 s)
  /\ MmReaderArray.next_document s = Raise ValueError.
Proof.
  intros H8 Hneg.
  assert (H2 : MmReader2.next_document t s = Ok ([], skipn 8 s)).
  { rewrite next_document2_unfold.
    destruct (Nat.leb_spec 8 (length s)) as [_|?]; [|lia].
    unfold fmt_times.
    replace (Z.to_nat (doc_length_at s)) with 0%nat by lia.
    reflexivity. }
  split; [|split].
  - now rewrite next_document_eq.
  - assumption.
  - unfold MmReaderArray.next_document.
    unfold bind at 1.
    rewrite fromfile_ok by (change (Z.to_nat 2) with 2%nat; lia).
    change (Z.to_nat 2) with 2%nat. change (4 * 2)%nat with 8%nat.
    cbn [items].
    rewrite firstn_skipn_firstn by lia.
    fold (doc_length_at s).
    unfold bind at 1. unfold fromfile at 1.
    destruct (Z.ltb_spec (doc_length_at s) 0) as [_|?]; [reflexivity|lia].
Qed.

Lemma negative_doc_length_witness :
  MmReader1.next_document true sample_negative_record
  = Ok ([], skipn 8 sample_negative_record)
  /\ MmReader2.next_document true sample_negative_record
     = Ok ([], skipn 8 sample_negative_record)
  /\ MmReaderArray.next_document sample_negative_record = Raise ValueError.
Proof.
  apply (negative_doc_length sample_negative_record true).
  - vm_compute. lia.
  - reflexivity.
Defined.

(** ** What the constructors accept *)

Lemma constructors_agree_aux (file : list byte) (t : bool) :
  if (12 <=? length file)%nat then
    MmReader1.init file t = Ok (reader_of file t)
    /\ MmReader2.init file t = Ok (reader_of file t)
    /\ MmReaderArray.init file t = Ok (reader_of file t)
  else
    MmReader1.init file t = Raise struct_error
    /\ MmReader2.init file t = Raise struct_error
    /\ (MmReaderArray.init file t = Raise EOFError
        \/ MmReaderArray.init file t = Raise ValueError).
Proof.
  destruct (Nat.leb_spec 12 (length file)) as [H|H].
  - auto using init1_whole, init2_whole, initA_whole.
  - split; [now apply init_struct_short|].
    split; [now apply init2_short|].
    unfold MmReaderArray.init, MmReaderArray.read_headers, fromfile.
    cbn [Z.ltb Z.compare]. unfold bind, read.
    change (Z.to_nat 3) with 3%nat. change (4 * 3)%nat with 12%nat.
    rewrite length_firstn, Nat.min_r by lia.
    destruct (Nat.eqb (length file mod 4) 0); cbn [negb]; [|now right].
    destruct (Nat.eqb_spec (length file) 12) as [?|_]; [lia|].
    now left.
Qed.

(** X4: the three constructors accept exactly the files of at least twelve
    bytes and then build the same reader, whose three statistics are the
    three integers at the head of the file; on a shorter file the [struct]
    readers raise [struct.error] and the [array] reader [EOFError] or
    [ValueError]. *)
Theorem constructors_agree (file : list byte) (t : bool) :
  if (12 <=? length file)%nat then
    MmReader1.init file t = Ok (reader_of file t)
    /\ MmReader2.init file t = Ok (reader_of file t)
    /\ MmReaderArray.init file t = Ok (reader_of file t)
  else
    MmReader1.init file t = Raise struct_error
    /\ MmReader2.init file t = Raise struct_error
    /\ (MmReaderArray.init file t = Raise EOFError
        \/ MmReaderArray.init file t = Raise ValueError).
Proof. exact (constructors_agree_aux file t). Qed.

(** ** What a pass does not look at *)

Lemma firstn_app_le {A} (n : nat) (l r : list A) :
  (n <= length l)%nat -> firstn n (l ++ r) = firstn n l.
Proof.
  intros H. rewrite firstn_app.
  replace (n - length l)%nat with 0%nat by lia.
  cbn. apply app_nil_r.
Qed.

Lemma skipn_app_le {A} (n : nat) (l r : list A) :
  (n <= length l)%nat -> skipn n (l ++ r) = skipn n l ++ r.
Proof.
  intros H. rewrite skipn_app.
  replace (n - length l)%nat with 0%nat by lia.
  reflexivity.
Qed.

Lemma doc_length_at_app (s extra : stream) :
  (8 <= length s)%nat -> doc_length_at (s ++ extra) = doc_length_at s.
Proof.
  intros H. unfold doc_length_at.
  rewrite skipn_app_le by lia.
  rewrite firstn_app_le by (rewrite length_skipn; lia).
  reflexivity.
Qed.

Lemma record_size_app (s extra : stream) :
  (8 <= length s)%nat -> record_size (s ++ extra) = record_size s.
Proof. intros H. unfold record_size. now rewrite doc_length_at_app. Qed.

Section Ignored.

Variable run : list byte -> bool -> list bow * outcome.
Variable body : bool -> M bow.
Variable dec : bool -> list byte -> bow.

Hypothesis run_whole :
  forall file t, (12 <= length file)%nat ->
    run file t = for_range_yield (body t) (Z.to_nat (header_num_docs file))
                                 (skipn 12 file).
Hypothesis body_framed : forall t, framed (body t) (dec t).

(** The loop does not read past the records it was asked for. *)
Lemma pass_whole_then_more (t : bool) (n : nat) :
  forall s extra,
    wf_records n s = true ->
    for_range_yield (body t) n (s ++ extra)
    = (map (dec t) (records_of n s), Done).
Proof.
  destruct (body_framed t) as [Hok _].
  induction n as [|n IH]; intros s extra H; [reflexivity|].
  cbn [wf_records] in H. apply andb_true_iff in H as [Hfit Hrest].
  pose proof (record_fits_inv s Hfit) as (H8 & Hn & Hsz).
  assert (Hfit' : record_fits (s ++ extra) = true).
  { unfold record_fits.
    rewrite record_size_app, doc_length_at_app, length_app by assumption.
    rewrite !andb_true_iff, !Nat.leb_le, Z.leb_le. lia. }
  cbn [for_range_yield records_of map].
  rewrite (Hok _ Hfit'), record_size_app by assumption.
  rewrite firstn_app_le, skipn_app_le by assumption.
  now rewrite IH.
Qed.

Lemma run_ignores_trailing (file extra : list byte) (t : bool) :
  well_formed file = true -> run (file ++ extra) t = run file t.
Proof.
  intros H. apply well_formed_inv in H as (H12 & _ & Hrec).
  rewrite !run_whole by (rewrite ?length_app; lia).
  unfold header_num_docs.
  rewrite firstn_app_le, skipn_app_le by lia.
  rewrite pass_whole_then_more by assumption.
  symmetry. now apply pass_whole.
Qed.

Lemma run_ignores_statistics (a b b' rest : list byte) (t : bool) :
  length a = 4%nat -> length b = 8%nat -> length b' = 8%nat ->
  run (a ++ b ++ rest) t = run (a ++ b' ++ rest) t.
Proof.
  intros Ha Hb Hb'.
  rewrite !run_whole by (rewrite !length_app; lia).
  unfold header_num_docs.
  rewrite !firstn_app_length by assumption.
  rewrite !app_assoc.
  rewrite !skipn_app_length by (rewrite length_app; lia).
  reflexivity.
Qed.

End Ignored.

(** X5: bytes that follow the last record of a well-formed file are never
    read: each reader makes the same pass over the file with and without
    them. *)
Theorem trailing_bytes_ignored (file extra : list byte) (t : bool) :
  well_formed file = true ->
  run1 (file ++ extra) t = run1 file t
  /\ run2 (file ++ extra) t = run2 file t
  /\ runArray (file ++ extra) t = runArray file t.
Proof.
  intros H. split; [|split].
  - apply (run_ignores_trailing run1 MmReader1.next_document
                                decode_interleaved);
      auto using run1_whole, framed_MmReader1.
  - apply (run_ignores_trailing run2 MmReader2.next_document
                                decode_interleaved);
      auto using run2_whole, framed_MmReader2.
  - apply (run_ignores_trailing runArray (fun _ => MmReaderArray.next_document)
                                (fun _ => decode_columnar));
      auto using runA_whole, framed_MmReaderArray.
Qed.

Lemma trailing_bytes_ignored_witness :
  run1 (sample_interleaved ++ [x2a; x2a; x2a]) false
  = run1 sample_interleaved false
  /\ run2 (sample_interleaved ++ [x2a; x2a; x2a]) false
     = run2 sample_interleaved false
  /\ runArray (sample_interleaved ++ [x2a; x2a; x2a]) false
     = runArray sample_interleaved false.
Proof.
  apply (trailing_bytes_ignored sample_interleaved [x2a; x2a; x2a] false).
  reflexivity.
Defined.

(** X6: the pass of each reader depends on the header only through its
    first integer: two files that differ only in the eight bytes of
    [num_terms] and [num_nnz] give the same pass, so neither statistic is
    checked against the records. *)
Theorem header_statistics_unchecked (a b b' rest : list byte) (t : bool) :
  length a = 4%nat -> length b = 8%nat -> length b' = 8%nat ->
  run1 (a ++ b ++ rest) t = run1 (a ++ b' ++ rest) t
  /\ run2 (a ++ b ++ rest) t = run2 (a ++ b' ++ rest) t
  /\ runArray (a ++ b ++ rest) t = runArray (a ++ b' ++ rest) t.
Proof.
  intros Ha Hb Hb'. split; [|split].
  - apply (run_ignores_statistics run1 MmReader1.next_document);
      auto using run1_whole.
  - apply (run_ignores_statistics run2 MmReader2.next_document);
      auto using run2_whole.
  - apply (run_ignores_statistics runArray
                                  (fun _ => MmReaderArray.next_document));
      auto using runA_whole.
Qed.

Lemma header_statistics_unchecked_witness :
  run1 (bytes_of_int32 1 ++ (bytes_of_int32 3 ++ bytes_of_int32 2)
        ++ skipn 12 sample_interleaved) true
  = run1 (bytes_of_int32 1 ++ (bytes_of_int32 0 ++ bytes_of_int32 99)
          ++ skipn 12 sample_interleaved) true
  /\ run2 (bytes_of_int32 1 ++ (bytes_of_int32 3 ++ bytes_of_int32 2)
           ++ skipn 12 sample_interleaved) true
     = run2 (bytes_of_int32 1 ++ (bytes_of_int32 0 ++ bytes_of_int32 99)
             ++ skipn 12 sample_interleaved) true
  /\ runArray (bytes_of_int32 1 ++ (bytes_of_int32 3 ++ bytes_of_int32 2)
               ++ skipn 12 sample_interleaved) true
     = runArray (bytes_of_int32 1 ++ (bytes_of_int32 0 ++ bytes_of_int32 99)
                 ++ skipn 12 sample_interleaved) true.
Proof.
  apply (header_statistics_unchecked
           (bytes_of_int32 1) (bytes_of_int32 3 ++ bytes_of_int32 2)
           (bytes_of_int32 0 ++ bytes_of_int32 99)
           (skipn 12 sample_interleaved) true); reflexivity.
Defined.

(** ** What the interleaved readers return *)

Lemma unpack_fields_stored (n : nat) :
  forall b, unpack_fields (concat (repeat [Ci; Cf] n)) b
            = tuple_of (stored_entries n b).
Proof.
  induction n as [|n IH]; intros b; [reflexivity|].
  cbn [repeat concat app unpack_fields stored_entries].
  unfold tuple_of. cbn [map concat app fst snd].
  rewrite IH, skipn_skipn. reflexivity.
Qed.

Lemma length_stored_entries (n : nat) :
  forall b, length (stored_entries n b) = n.
Proof.
  induction n as [|n IH]; intros b; [reflexivity|].
  cbn [stored_entries length]. now rewrite IH.
Qed.

Lemma decode_interleaved_transposed (r : list byte) :
  decode_interleaved true r
  = stored_entries (Z.to_nat (doc_length_at r)) (skipn 8 r).
Proof.
  unfold decode_interleaved, fmt_times.
  now rewrite unpack_fields_stored, pairs_loop_transposed.
Qed.

Lemma decode_interleaved_not_transposed (r : list byte) :
  decode_interleaved false r
  = let es := stored_entries (Z.to_nat (doc_length_at r)) (skipn 8 r) in
    combine (drifted_ids (docid_at r) (map fst es)) (map snd es).
Proof.
  unfold decode_interleaved, fmt_times.
  now rewrite unpack_fields_stored, pairs_loop_not_transposed.
Qed.

Lemma stored_entries_firstn (n : nat) :
  forall m b, (8 * n <= m)%nat ->
              stored_entries n (firstn m b) = stored_entries n b.
Proof.
  induction n as [|n IH]; intros m b H; [reflexivity|].
  cbn [stored_entries].
  rewrite firstn_firstn_le, firstn_skipn_firstn, skipn_firstn_comm by lia.
  rewrite IH by lia. reflexivity.
Qed.

Lemma length_drifted_ids (docid : Z) (ts : list Z) :
  length (drifted_ids docid ts) = length ts.
Proof.
  unfold drifted_ids. rewrite length_firstn. cbn [length]. lia.
Qed.

(** X7: on a stream that starts with a whole record, the two [struct]
    readers constructed with [transposed] true return exactly the
    (term id, weight) pairs stored after the sub-header, in file order,
    and leave the stream at the end of the record. *)
Theorem transposed_decode_returns_stored (s : stream) :
  record_fits s = true ->
  MmReader1.next_document true s
  = Ok (stored_entries (Z.to_nat (doc_length_at s)) (skipn 8 s),
        skipn (record_size s) s)
  /\ MmReader2.next_document true s
     = Ok (stored_entries (Z.to_nat (doc_length_at s)) (skipn 8 s),
           skipn (record_size s) s).
Proof.
  intros H.
  destruct (framed_MmReader2 true) as [Hok _].
  pose proof (record_fits_inv s H) as (H8 & Hn & Hsz).
  assert (H2 : MmReader2.next_document true s
               = Ok (stored_entries (Z.to_nat (doc_length_at s)) (skipn 8 s),
                     skipn (record_size s) s)).
  { rewrite (Hok s H), decode_interleaved_transposed.
    unfold record_size in *.
    rewrite doc_length_at_firstn, skipn_firstn_comm by lia.
    rewrite stored_entries_firstn by lia. reflexivity. }
  split; [now rewrite next_document_eq | assumption].
Qed.

Lemma transposed_decode_returns_stored_witness :
  MmReader1.next_document true (skipn 12 sample_interleaved)
  = Ok (stored_entries
          (Z.to_nat (doc_length_at (skipn 12 sample_interleaved)))
          (skipn 8 (skipn 12 sample_interleaved)),
        skipn (record_size (skipn 12 sample_interleaved))
              (skipn 12 sample_interleaved))
  /\ MmReader2.next_document true (skipn 12 sample_interleaved)
     = Ok (stored_entries
             (Z.to_nat (doc_length_at (skipn 12 sample_interleaved)))
             (skipn 8 (skipn 12 sample_interleaved)),
           skipn (record_size (skipn 12 sample_interleaved))
                 (skipn 12 sample_interleaved)).
Proof.
  apply (transposed_decode_returns_stored (skipn 12 sample_interleaved)).
  reflexivity.
Defined.

(** X8: constructed with [transposed] false, the two [struct] readers
    return, for a whole record, as many entries as are stored, with the
    stored weights in file order; the first components are the sub-header
    id followed by the stored term ids but the last. *)
Theorem not_transposed_decode (s : stream) :
  record_fits s = true ->
  let es := stored_entries (Z.to_nat (doc_length_at s)) (skipn 8 s) in
  exists d,
    MmReader1.next_document false s = Ok (d, skipn (record_size s) s)
    /\ MmReader2.next_document false s = Ok (d, skipn (record_size s) s)
    /\ map snd d = map snd es
    /\ map fst d = drifted_ids (docid_at s) (map fst es).
Proof.
  intros H es.
  destruct (framed_MmReader2 false) as [Hok _].
  pose proof (record_fits_inv s H) as (H8 & Hn & Hsz).
  exists (combine (drifted_ids (docid_at s) (map fst es)) (map snd es)).
  assert (H2 : MmReader2.next_document false s
               = Ok (combine (drifted_ids (docid_at s) (map fst es))
                             (map snd es),
                     skipn (record_size s) s)).
  { rewrite (Hok s H), decode_interleaved_not_transposed. cbv zeta.
    unfold record_size in *.
    rewrite doc_length_at_firstn, docid_at_firstn, skipn_firstn_comm by lia.
    rewrite stored_entries_firstn by lia. reflexivity. }
  assert (Hlen : length (drifted_ids (docid_at s) (map fst es))
                 = length (map snd es))
    by (rewrite length_drifted_ids, !length_map; reflexivity).
  split; [now rewrite next_document_eq|].
  split; [assumption|].
  pose proof (combine_split _ _ Hlen) as Hsplit.
  split.
  - transitivity (snd (split (combine (drifted_ids (docid_at s) (map fst es))
                                      (map snd es)))).
    + clear. induction (combine _ _) as [|[a b] l IH]; [reflexivity|].
      cbn [map split snd]. destruct (split l). cbn in *. now rewrite IH.
    + now rewrite Hsplit.
  - transitivity (fst (split (combine (drifted_ids (docid_at s) (map fst es))
                                      (map snd es)))).
    + clear. induction (combine _ _) as [|[a b] l IH]; [reflexivity|].
      cbn [map split fst]. destruct (split l). cbn in *. now rewrite IH.
    + now rewrite Hsplit.
Qed.

Lemma not_transposed_decode_witness :
  exists d,
    MmReader1.next_document false (skipn 12 sample_interleaved)
    = Ok (d, skipn (record_size (skipn 12 sample_interleaved))
                   (skipn 12 sample_interleaved))
    /\ MmReader2.next_document false (skipn 12 sample_interleaved)
       = Ok (d, skipn (record_size (skipn 12 sample_interleaved))
                      (skipn 12 sample_interleaved))
    /\ map snd d
       = map snd (stored_entries
                    (Z.to_nat (doc_length_at (skipn 12 sample_interleaved)))
                    (skipn 8 (skipn 12 sample_interleaved)))
    /\ map fst d
       = drifted_ids
           (docid_at (skipn 12 sample_interleaved))
           (map fst (stored_entries
                       (Z.to_nat (doc_length_at (skipn 12 sample_interleaved)))
                       (skipn 8 (skipn 12 sample_interleaved)))).
Proof.
  apply (not_transposed_decode (skipn 12 sample_interleaved)).
  reflexivity.
Defined.

(** ** Counting the entries of a corpus *)

Lemma count_terms_length (doc : bow) :
  forall count, count_terms doc count = count + Z.of_nat (length doc).
Proof.
  induction doc as [|e doc IH]; intros count; cbn [count_terms length].
  - lia.
  - rewrite IH. lia.
Qed.

Lemma count_docs_length (docs : list bow) :
  forall count,
    count_docs docs count = count + Z.of_nat (length (concat docs)).
Proof.
  induction docs as [|doc docs IH]; intros count; cbn [count_docs concat].
  - cbn. lia.
  - rewrite IH, count_terms_length, length_app. lia.
Qed.

Lemma length_items {A} (item : list byte -> A) (n : nat) :
  forall b, length (items item n b) = n.
Proof.
  induction n as [|n IH]; intros b; [reflexivity|].
  cbn [items length]. now rewrite IH.
Qed.

Lemma length_decode_interleaved (t : bool) (r : list byte) :
  length (decode_interleaved t r) = Z.to_nat (doc_length_at r).
Proof.
  destruct t.
  - now rewrite decode_interleaved_transposed, length_stored_entries.
  - rewrite decode_interleaved_not_transposed. cbv zeta.
    rewrite (length_combine (A := Z) (B := float32)).
    rewrite length_drifted_ids, !length_map, length_stored_entries. lia.
Qed.

Lemma length_decode_columnar (r : list byte) :
  length (decode_columnar r) = Z.to_nat (doc_length_at r).
Proof.
  unfold decode_columnar.
  rewrite (length_combine (A := Z) (B := float32)), !length_items. lia.
Qed.

(** In [n] whole records the entries take what the sub-headers leave. *)
Lemma records_size (dec : list byte -> bow) :
  (forall r, length (dec r) = Z.to_nat (doc_length_at r)) ->
  forall n s,
    wf_records n s = true ->
    (8 * n + 8 * length (concat (map dec (records_of n s))) = length s)%nat.
Proof.
  intros Hdec n. induction n as [|n IH]; intros s H.
  - destruct s; [reflexivity|discriminate].
  - cbn [wf_records] in H. apply andb_true_iff in H as [Hfit Hrest].
    pose proof (record_fits_inv s Hfit) as (H8 & Hn & Hsz).
    specialize (IH _ Hrest). rewrite length_skipn in IH.
    cbn [records_of map concat]. rewrite length_app, Hdec.
    rewrite doc_length_at_firstn by (unfold record_size; lia).
    unfold record_size in *. lia.
Qed.

(** X9: on a well-formed file [count_nnz] returns the same count with
    each of the three readers and either value of the flag, and that count
    is fixed by the size of the file and the header's document count:
    twelve bytes of header, eight per document, eight per entry. *)
Theorem count_nnz_from_file_size (file : list byte) (t : bool) :
  well_formed file = true ->
  exists count,
    count_nnz (run1 file t) = Ok count
    /\ count_nnz (run2 file t) = Ok count
    /\ count_nnz (runArray file t) = Ok count
    /\ 12 + 8 * header_num_docs file + 8 * count = Z.of_nat (length file).
Proof.
  intros H.
  pose proof (run_well_formed run1 MmReader1.next_document decode_interleaved
                run1_whole framed_MmReader1 file t H) as R1.
  pose proof (run_well_formed run2 MmReader2.next_document decode_interleaved
                run2_whole framed_MmReader2 file t H) as R2.
  pose proof (run_well_formed runArray (fun _ => MmReaderArray.next_document)
                (fun _ => decode_columnar)
                runA_whole (fun _ => framed_MmReaderArray) file t H) as RA.
  apply well_formed_inv in H as (H12 & Hnd & Hrec).
  pose proof (records_size (decode_interleaved t)
                (length_decode_interleaved t) _ _ Hrec) as S1.
  pose proof (records_size decode_columnar length_decode_columnar _ _ Hrec)
    as SA.
  rewrite length_skipn in S1, SA.
  exists (Z.of_nat (length (concat (map (decode_interleaved t)
            (records_of (Z.to_nat (header_num_docs file)) (skipn 12 file)))))).
  rewrite R1, R2, RA. unfold count_nnz. cbn [fst snd].
  rewrite !count_docs_length.
  repeat split; try reflexivity.
  - f_equal. lia.
  - lia.
Qed.

Lemma count_nnz_from_file_size_witness :
  exists count,
    count_nnz (run1 sample_with_empty false) = Ok count
    /\ count_nnz (run2 sample_with_empty false) = Ok count
    /\ count_nnz (runArray sample_with_empty false) = Ok count
    /\ 12 + 8 * header_num_docs sample_with_empty + 8 * count
       = Z.of_nat (length sample_with_empty).
Proof.
  apply (count_nnz_from_file_size sample_with_empty false). reflexivity.
Defined.

(** X10: when the pass over a file is cut short, [count_nnz] returns no
    count at all: on a truncated well-formed file it raises the short-read
    exception of the reader, with each of the three readers. *)
Theorem count_nnz_truncated (file : list byte) (k : nat) (t : bool) :
  well_formed file = true -> (k < length file)%nat ->
  exists e1 e2 e3,
    count_nnz (run1 (firstn k file) t) = Raise e1
    /\ count_nnz (run2 (firstn k file) t) = Raise e2
    /\ count_nnz (runArray (firstn k file) t) = Raise e3
    /\ TruncatedInput e1 = true /\ TruncatedInput e2 = true
    /\ TruncatedInput e3 = true.
Proof.
  intros H Hk.
  destruct (run_truncated run1 MmReader1.next_document decode_interleaved
              run1_whole run1_short framed_MmReader1 file k t H Hk)
    as (j1 & e1 & T1 & R1 & _).
  destruct (run_truncated run2 MmReader2.next_document decode_interleaved
              run2_whole run2_short framed_MmReader2 file k t H Hk)
    as (j2 & e2 & T2 & R2 & _).
  destruct (run_truncated runArray (fun _ => MmReaderArray.next_document)
              (fun _ => decode_columnar) runA_whole runA_short
              (fun _ => framed_MmReaderArray) file k t H Hk)
    as (j3 & e3 & T3 & R3 & _).
  exists e1, e2, e3. unfold count_nnz. rewrite R1, R2, R3. cbn [snd].
  repeat split; assumption.
Qed.

Lemma count_nnz_truncated_witness :
  exists e1 e2 e3,
    count_nnz (run1 (firstn 30 sample_with_empty) true) = Raise e1
    /\ count_nnz (run2 (firstn 30 sample_with_empty) true) = Raise e2
    /\ count_nnz (runArray (firstn 30 sample_with_empty) true) = Raise e3
    /\ TruncatedInput e1 = true /\ TruncatedInput e2 = true
    /\ TruncatedInput e3 = true.
Proof.
  apply (count_nnz_truncated sample_with_empty 30 true).
  - reflexivity.
  - vm_compute. lia.
Defined.

(** * Further properties of the writer *)

Lemma array_i_out_of_range (l : list Z) :
  forallb in_int32 l = false -> array_i l = Raise OverflowError.
Proof.
  induction l as [|x l IH]; intros H; [discriminate|].
  cbn [forallb] in H. cbn [array_i].
  destruct (in_int32 x); [|reflexivity].
  now rewrite IH.
Qed.

Lemma fill_arrays_out_of_range (doc : bow) :
  forallb (fun e => in_int32 (fst e)) doc = false ->
  forall termids values,
    MmReaderArray.fill_arrays doc termids values = Raise OverflowError.
Proof.
  induction doc as [|[termid value] doc IH]; intros H termids values;
    [discriminate|].
  cbn [forallb fst] in H. cbn [MmReaderArray.fill_arrays].
  destruct (in_int32 termid); [|reflexivity].
  now apply IH.
Qed.

(** One document: either all of its record is appended, or the call
    raises [OverflowError] having appended nothing or the sub-header
    alone; the file is not closed by it. *)
Lemma save_document_spec (docid : Z) (doc : bow) (f : ofile) :
  exists p rest,
    snd (MmReaderArray.save_document docid doc f)
    = mkOfile (written f ++ p) (closed f)
    /\ columnar_record docid doc = p ++ rest
    /\ fst (MmReaderArray.save_document docid doc f)
       = (if in_int32 docid && doc_in_range doc then Ok tt
          else Raise OverflowError)
    /\ (in_int32 docid && doc_in_range doc = true -> rest = []).
Proof.
  destruct (in_int32 docid && doc_in_range doc) eqn:E.
  - apply andb_true_iff in E as [Hid Hdoc].
    exists (columnar_record docid doc), [].
    rewrite save_document_in_range by assumption.
    now rewrite app_nil_r.
  - unfold MmReaderArray.save_document, wbind, wlift, tofile_i, tofile_f, write.
    destruct (forallb in_int32 [docid; Z.of_nat (length doc)]) eqn:Eh.
    + rewrite array_i_in_range by assumption.
      cbn [forallb] in Eh. rewrite andb_true_r in Eh.
      apply andb_true_iff in Eh as [Hid Hlen].
      unfold doc_in_range in E. rewrite Hid, Hlen in E. cbn [andb] in E.
      rewrite fill_arrays_out_of_range by assumption.
      exists (bytes_of_int32 docid ++ bytes_of_int32 (Z.of_nat (length doc))),
             (concat (map bytes_of_int32 (map fst doc))
              ++ concat (map bytes_of_float32 (map snd doc))).
      cbn [fst snd written closed map concat].
      unfold columnar_record. rewrite app_nil_r, <- !app_assoc.
      repeat split. discriminate.
    + rewrite array_i_out_of_range by assumption.
      exists [], (columnar_record docid doc).
      cbn [fst snd]. rewrite app_nil_r.
      repeat split; [now destruct f | discriminate].
Qed.

Lemma docs_storable_cons (docid : Z) (doc : bow) (docs : list bow) :
  0 <= docid <= 2 ^ 31 ->
  docs_storable docid (doc :: docs)
  = in_int32 docid && doc_in_range doc && docs_storable (docid + 1) docs.
Proof.
  intros Hid. unfold docs_storable. cbn [forallb length].
  replace (docid + Z.of_nat (S (length docs)))
    with (docid + 1 + Z.of_nat (length docs)) by lia.
  destruct (in_int32 docid) eqn:E.
  - cbn [andb]. now rewrite andb_assoc.
  - assert (Hbig : docid = 2 ^ 31).
    { destruct (Z.eq_dec docid (2 ^ 31)) as [?|Hne]; [assumption|].
      assert (in_int32 docid = true) by (apply in_int32_range; lia).
      congruence. }
    cbn [andb].
    destruct (Z.leb_spec (docid + 1 + Z.of_nat (length docs)) (2 ^ 31));
      [lia|]. apply andb_false_r.
Qed.

(** A run of documents: what is appended is a prefix of their records,
    all of them exactly when the call returns normally, which it does
    exactly when every integer fits; the file is not closed by it. *)
Lemma save_documents_spec (docs : list bow) :
  forall (docid : Z) (f : ofile),
    0 <= docid <= 2 ^ 31 ->
    exists p rest,
      snd (MmReaderArray.save_documents docid docs f)
      = mkOfile (written f ++ p) (closed f)
      /\ columnar_records docid docs = p ++ rest
      /\ fst (MmReaderArray.save_documents docid docs f)
         = (if docs_storable docid docs then Ok tt else Raise OverflowError)
      /\ (docs_storable docid docs = true -> rest = []).
Proof.
  induction docs as [|doc docs IH]; intros docid f Hid.
  - exists [], []. unfold docs_storable.
    cbn [MmReaderArray.save_documents wret forallb length fst snd andb
         columnar_records app].
    destruct (Z.leb_spec (docid + Z.of_nat 0) (2 ^ 31)) as [_|H]; [|lia].
    rewrite app_nil_r. repeat split. now destruct f.
  - rewrite docs_storable_cons by assumption.
    destruct (save_document_spec docid doc f)
      as (p & rest & Hsnd & Hrec & Hfst & Hall).
    cbn [MmReaderArray.save_documents columnar_records]. unfold wbind.
    destruct (MmReaderArray.save_document docid doc f) as [r f'].
    cbn [fst snd] in Hsnd, Hfst. subst f'.
    destruct (in_int32 docid && doc_in_range doc) eqn:E; subst r.
    + rewrite (Hall eq_refl), app_nil_r in Hrec.
      apply andb_true_iff in E as [Hin Hdoc].
      pose proof (proj1 (in_int32_range docid) Hin) as Hr.
      destruct (IH (docid + 1) (mkOfile (written f ++ p) (closed f)))
        as (p' & rest' & Hsnd' & Hrec' & Hfst' & Hall'); [lia|].
      exists (p ++ p'), rest'.
      rewrite Hsnd', Hfst'. cbn [written closed andb].
      rewrite <- !app_assoc, Hrec', Hrec.
      repeat split. assumption.
    + exists p, (rest ++ columnar_records (docid + 1) docs).
      cbn [fst snd andb]. rewrite app_assoc, <- Hrec.
      repeat split. discriminate.
Qed.

(** The whole call: the file holds a prefix of the bytes of the corpus,
    all of them and closed exactly when every integer fits; otherwise the
    call raises [OverflowError] and the file stays open. *)
Lemma save_corpus_spec (c : corpus) :
  exists p rest,
    MmReaderArray.save_corpus c
    = (if corpus_storable c then Ok tt else Raise OverflowError,
       mkOfile p (corpus_storable c))
    /\ columnar_file c = p ++ rest
    /\ (corpus_storable c = true -> rest = []).
Proof.
  unfold corpus_storable.
  destruct (forallb in_int32 [corpus_num_docs c; corpus_num_terms c;
                              corpus_num_nnz c]) eqn:Hh.
  - assert (Eh : in_int32 (corpus_num_docs c) && in_int32 (corpus_num_terms c)
                 && in_int32 (corpus_num_nnz c) = true).
    { cbn [forallb] in Hh. now rewrite andb_true_r, andb_assoc in Hh. }
    rewrite Eh. cbn [andb].
    unfold MmReaderArray.save_corpus, wbind, wlift, tofile_i, write, close.
    rewrite array_i_in_range by assumption.
    cbn [written closed smart_open_wb app].
    match goal with
    | |- context [MmReaderArray.save_documents 0 (corpus_docs c) ?f] =>
        destruct (save_documents_spec (corpus_docs c) 0 f)
          as (p & rest & Hsnd & Hrec & Hfst & Hall); [lia|];
        destruct (MmReaderArray.save_documents 0 (corpus_docs c) f) as [r f']
    end.
    cbn [fst snd written closed] in Hsnd, Hfst. subst r f'.
    exists (bytes_of_int32 (corpus_num_docs c)
            ++ bytes_of_int32 (corpus_num_terms c)
            ++ bytes_of_int32 (corpus_num_nnz c) ++ p), rest.
    split; [|split].
    + cbn [map concat]. rewrite app_nil_r, <- !app_assoc.
      now destruct (docs_storable 0 (corpus_docs c)).
    + unfold columnar_file. now rewrite Hrec, <- !app_assoc.
    + assumption.
  - assert (Eh : in_int32 (corpus_num_docs c) && in_int32 (corpus_num_terms c)
                 && in_int32 (corpus_num_nnz c) = false).
    { cbn [forallb] in Hh. now rewrite andb_true_r, andb_assoc in Hh. }
    rewrite Eh. cbn [andb].
    unfold MmReaderArray.save_corpus, wbind, wlift.
    rewrite array_i_out_of_range by assumption.
    exists [], (columnar_file c). repeat split. discriminate.
Qed.


(** X12: [save_corpus] leaves the file closed if and only if it returns
    normally. *)
Theorem save_corpus_closes_iff_ok (c : corpus) :
  closed (snd (MmReaderArray.save_corpus c)) = true
  <-> fst (MmReaderArray.save_corpus c) = Ok tt.
Proof.
  destruct (save_corpus_spec c) as (p & rest & Hs & _). rewrite Hs.
  cbn [fst snd closed].
  destruct (corpus_storable c); split; intros H;
    reflexivity || discriminate.
Qed.

(** X13: whatever happens, what [save_corpus] has written is a prefix of
    the header followed by the records of the documents in order, and it
    is all of it when the call returns normally: a failure leaves a
    partial file, never a file with something else in it. *)
Theorem save_corpus_writes_prefix (c : corpus) :
  exists rest,
    columnar_file c = written (snd (MmReaderArray.save_corpus c)) ++ rest
    /\ (fst (MmReaderArray.save_corpus c) = Ok tt -> rest = []).
Proof.
  destruct (save_corpus_spec c) as (p & rest & Hs & Hfile & Hall).
  exists rest. rewrite Hs. cbn [fst snd written].
  split; [assumption|].
  destruct (corpus_storable c); [auto|discriminate].
Qed.

(** ** Reading a saved corpus back *)

Lemma next_document_at_end : MmReaderArray.next_document [] = Raise EOFError.
Proof. reflexivity. Qed.


Lemma corpus_storable_inv (c : corpus) :
  corpus_storable c = true ->
  in_int32 (corpus_num_docs c) = true
  /\ in_int32 (corpus_num_terms c) = true
  /\ in_int32 (corpus_num_nnz c) = true
  /\ forallb doc_in_range (corpus_docs c) = true.
Proof.
  unfold corpus_storable, docs_storable. rewrite !andb_true_iff. tauto.
Qed.

Lemma length_columnar_file (c : corpus) :
  length (columnar_file c)
  = (12 + length (columnar_records 0 (corpus_docs c)))%nat.
Proof.
  unfold columnar_file. rewrite !length_app, !length_bytes_of_int32. lia.
Qed.

Lemma skipn_12_columnar_file (c : corpus) :
  skipn 12 (columnar_file c) = columnar_records 0 (corpus_docs c).
Proof.
  unfold columnar_file. rewrite !app_assoc.
  apply skipn_app_length.
  now rewrite !length_app, !length_bytes_of_int32.
Qed.

Lemma header_of_columnar_file (c : corpus) :
  in_int32 (corpus_num_docs c) = true ->
  in_int32 (corpus_num_terms c) = true ->
  in_int32 (corpus_num_nnz c) = true ->
  header_num_docs (columnar_file c) = corpus_num_docs c
  /\ header_num_terms (columnar_file c) = corpus_num_terms c
  /\ header_num_nnz (columnar_file c) = corpus_num_nnz c.
Proof.
  intros H1 H2 H3.
  unfold header_num_docs, header_num_terms, header_num_nnz, columnar_file.
  split; [|split].
  - rewrite firstn_app_length by apply length_bytes_of_int32.
    now apply int32_of_bytes_of_int32.
  - rewrite skipn_app_length by apply length_bytes_of_int32.
    rewrite firstn_app_length by apply length_bytes_of_int32.
    now apply int32_of_bytes_of_int32.
  - rewrite (app_assoc (bytes_of_int32 (corpus_num_docs c))).
    rewrite skipn_app_length
      by (rewrite length_app, !length_bytes_of_int32; reflexivity).
    rewrite firstn_app_length by apply length_bytes_of_int32.
    now apply int32_of_bytes_of_int32.
Qed.




(** X15: each of the three constructors, applied to the file of a saved
    corpus, builds a reader whose [num_docs], [num_terms] and [num_nnz]
    are the statistics the corpus declared, and whose [len] is the
    declared [num_docs], whatever the number of documents in the file. *)
Theorem saved_header_read_back (c : corpus) (t : bool) :
  corpus_storable c = true ->
  let self := mkReader (columnar_file c) t (corpus_num_docs c)
                       (corpus_num_terms c) (corpus_num_nnz c) in
  MmReader1.init (columnar_file c) t = Ok self
  /\ MmReader2.init (columnar_file c) t = Ok self
  /\ MmReaderArray.init (columnar_file c) t = Ok self
  /\ len self = corpus_num_docs c.
Proof.
  intros H self.
  apply corpus_storable_inv in H as (H1 & H2 & H3 & _).
  destruct (header_of_columnar_file c H1 H2 H3) as (Hnd & Hnt & Hnnz).
  assert (Hr : reader_of (columnar_file c) t = self).
  { unfold reader_of, self. now rewrite Hnd, Hnt, Hnnz. }
  assert (H12 : (12 <= length (columnar_file c))%nat)
    by (rewrite length_columnar_file; lia).
  rewrite init1_whole, init2_whole, initA_whole, Hr by assumption.
  repeat split.
Qed.

Lemma saved_header_read_back_witness :
  MmReader1.init (columnar_file miscounted_corpus) true
  = Ok (mkReader (columnar_file miscounted_corpus) true 5 3 1)
  /\ MmReader2.init (columnar_file miscounted_corpus) true
     = Ok (mkReader (columnar_file miscounted_corpus) true 5 3 1)
  /\ MmReaderArray.init (columnar_file miscounted_corpus) true
     = Ok (mkReader (columnar_file miscounted_corpus) true 5 3 1)
  /\ len (mkReader (columnar_file miscounted_corpus) true 5 3 1) = 5.
Proof.
  apply (saved_header_read_back miscounted_corpus true). reflexivity.
Defined.

Lemma length_columnar_record (docid : Z) (doc : bow) :
  length (columnar_record docid doc) = (8 + 8 * length doc)%nat.
Proof.
  unfold columnar_record.
  rewrite !length_app, !length_bytes_of_int32.
  rewrite !length_concat_fixed, !length_map
    by auto using length_bytes_of_int32, length_bytes_of_float32.
  unfold entry. lia.
Qed.

Lemma doc_length_at_columnar_record (docid : Z) (doc : bow) (rest : stream) :
  in_int32 (Z.of_nat (length doc)) = true ->
  doc_length_at (columnar_record docid doc ++ rest) = Z.of_nat (length doc).
Proof.
  intros H. unfold doc_length_at, columnar_record.
  rewrite <- !app_assoc.
  rewrite skipn_app_length by apply length_bytes_of_int32.
  rewrite firstn_app_length by apply length_bytes_of_int32.
  now apply int32_of_bytes_of_int32.
Qed.

Lemma wf_columnar_records (docs : list bow) :
  forallb doc_in_range docs = true ->
  forall docid,
    wf_records (length docs) (columnar_records docid docs) = true.
Proof.
  induction docs as [|doc docs IH]; intros H docid; [reflexivity|].
  cbn [forallb] in H. apply andb_true_iff in H as [Hdoc Hdocs].
  pose proof Hdoc as Hdoc'. apply andb_true_iff in Hdoc' as [Hlen _].
  cbn [length wf_records columnar_records].
  assert (Hsz : record_size (columnar_record docid doc
                             ++ columnar_records (docid + 1) docs)
                = length (columnar_record docid doc)).
  { unfold record_size.
    rewrite doc_length_at_columnar_record, Nat2Z.id, length_columnar_record
      by assumption. reflexivity. }
  rewrite Hsz, skipn_app_length, IH by auto.
  rewrite andb_true_r. unfold record_fits.
  rewrite Hsz, doc_length_at_columnar_record by assumption.
  rewrite length_app, length_columnar_record.
  rewrite !andb_true_iff, !Nat.leb_le, Z.leb_le. lia.
Qed.

(** X16: the file of a saved corpus whose declared [num_docs] is the
    number of documents supplied is well-formed, so what is proved of
    well-formed files holds of it for every reader; in particular the
    [struct] readers, which expect the other layout, make a full pass over
    it and yield as many documents, and [count_nnz] over any of the
    three readers returns the number of entries supplied. *)
Theorem saved_corpus_well_formed (c : corpus) (t : bool) :
  corpus_storable c = true ->
  corpus_num_docs c = Z.of_nat (length (corpus_docs c)) ->
  well_formed (columnar_file c) = true
  /\ count_nnz (run1 (columnar_file c) t)
     = Ok (Z.of_nat (length (concat (corpus_docs c))))
  /\ count_nnz (run2 (columnar_file c) t)
     = Ok (Z.of_nat (length (concat (corpus_docs c))))
  /\ count_nnz (runArray (columnar_file c) t)
     = Ok (Z.of_nat (length (concat (corpus_docs c)))).
Proof.
  intros H Hcount.
  pose proof (corpus_storable_inv c H) as (H1 & H2 & H3 & Hdocs).
  destruct (header_of_columnar_file c H1 H2 H3) as (Hnd & _ & _).
  assert (Hwf : well_formed (columnar_file c) = true).
  { unfold well_formed.
    rewrite Hnd, Hcount, Nat2Z.id, skipn_12_columnar_file.
    rewrite wf_columnar_records by assumption.
    rewrite length_columnar_file.
    rewrite !andb_true_iff, Nat.leb_le, Z.leb_le. repeat split; lia. }
  split; [assumption|].
  assert (HA : runArray (columnar_file c) t = (corpus_docs c, Done)).
  { rewrite runA_whole by (rewrite length_columnar_file; lia).
    rewrite Hnd, Hcount, Nat2Z.id, skipn_12_columnar_file.
    now apply for_range_yield_columnar_records. }
  assert (CA : count_nnz (runArray (columnar_file c) t)
               = Ok (Z.of_nat (length (concat (corpus_docs c))))).
  { rewrite HA. unfold count_nnz. cbn [fst snd].
    now rewrite count_docs_length. }
  pose proof (run_well_formed run1 MmReader1.next_document decode_interleaved
                run1_whole framed_MmReader1 _ t Hwf) as R1.
  pose proof (run_well_formed run2 MmReader2.next_document decode_interleaved
                run2_whole framed_MmReader2 _ t Hwf) as R2.
  pose proof (run_well_formed runArray (fun _ => MmReaderArray.next_document)
                (fun _ => decode_columnar)
                runA_whole (fun _ => framed_MmReaderArray) _ t Hwf) as RA.
  apply well_formed_inv in Hwf as (H12 & _ & Hrec).
  pose proof (records_size (decode_interleaved t)
                (length_decode_interleaved t) _ _ Hrec) as S1.
  pose proof (records_size decode_columnar length_decode_columnar _ _ Hrec)
    as SA.
  assert (HD : map decode_columnar
                   (records_of (Z.to_nat (header_num_docs (columnar_file c)))
                               (skipn 12 (columnar_file c)))
               = corpus_docs c)
    by (rewrite RA in HA; congruence).
  rewrite HD in SA.
  split; [|split]; [| |exact CA].
  - rewrite R1. unfold count_nnz. cbn [fst snd].
    rewrite count_docs_length. f_equal. unfold bow, entry in *. lia.
  - rewrite R2. unfold count_nnz. cbn [fst snd].
    rewrite count_docs_length. f_equal. unfold bow, entry in *. lia.
Qed.

Lemma saved_corpus_well_formed_witness :
  well_formed (columnar_file sample_corpus) = true
  /\ count_nnz (run1 (columnar_file sample_corpus) false)
     = Ok (Z.of_nat (length (concat (corpus_docs sample_corpus))))
  /\ count_nnz (run2 (columnar_file sample_corpus) false)
     = Ok (Z.of_nat (length (concat (corpus_docs sample_corpus))))
  /\ count_nnz (runArray (columnar_file sample_corpus) false)
     = Ok (Z.of_nat (length (concat (corpus_docs sample_corpus)))).
Proof.
  apply (saved_corpus_well_formed sample_corpus false); reflexivity.
Defined.

(** ** The reader objects *)


(** X18: whichever constructor built it, the three statistics of a reader
    are C [int]s: each lies between [- 2 ^ 31] and [2 ^ 31 - 1], so [len]
    does too. *)
Theorem reader_statistics_in_range (file : list byte) (t : bool)
        (self : reader) :
  MmReader1.init file t = Ok self
  \/ MmReader2.init file t = Ok self
  \/ MmReaderArray.init file t = Ok self ->
  in_int32 (len self) = true
  /\ in_int32 (num_terms self) = true
  /\ in_int32 (num_nnz self) = true.
Proof.
  intros H.
  assert (Hs : (12 <= length file)%nat /\ self = reader_of file t).
  { pose proof (constructors_agree_aux file t) as Hc.
    destruct (Nat.leb_spec 12 (length file)) as [H12|H12].
    - destruct Hc as (H1 & H2 & H3).
      split; [assumption|].
      destruct H as [H|[H|H]]; congruence.
    - destruct Hc as (H1 & H2 & H3).
      destruct H as [H|[H|H]]; try congruence.
      destruct H3; congruence. }
  destruct Hs as [H12 ->].
  unfold len, reader_of, header_num_docs, header_num_terms, header_num_nnz.
  cbn [num_docs num_terms num_nnz].
  repeat split; apply in_int32_of_bytes;
    rewrite length_firstn, ?length_skipn; lia.
Qed.

Lemma reader_statistics_in_range_witness :
  in_int32 (len (reader_of sample_negative_count true)) = true
  /\ in_int32 (num_terms (reader_of sample_negative_count true)) = true
  /\ in_int32 (num_nnz (reader_of sample_negative_count true)) = true.
Proof.
  apply (reader_statistics_in_range sample_negative_count true
           (reader_of sample_negative_count true)).
  left. reflexivity.
Defined.
